(** * Paper-trading arbitrage engine of cross-chain-arbitrage (src/src/arbitrage.ts,
    src/src/getters.ts), shallow embedding.

    JavaScript numbers used for money are modelled as rationals [Q]; the
    module-level mutable tables [paperBalances], [paperTrades] and
    [priceCache] are threaded explicitly as state. [Date.now()] and the random
    trade id are inputs. *)

From Stdlib Require Import QArith Qround Qminmax Lqa ZArith Ascii String.
From stdpp Require Import base gmap strings list.

Open Scope Q_scope.

(** ** Data model *)

(** [interface TokenBalance] *)
Record TokenBalance := mkTokenBalance {
  usdc : Q;
  usdt : Q;
  timestamp : Z
}.

(** [status: 'executed' | 'failed' | 'pending'] *)
Inductive TradeStatus := executed | failed | pending.

(** [interface PaperTrade] *)
Record PaperTrade := mkPaperTrade {
  id : string;
  sourceChain : string;
  targetChain : string;
  sourcePrice : Q;
  targetPrice : Q;
  amount : Q;
  profit : Q;
  gasCost : Q;
  netProfit : Q;
  trade_timestamp : Z;
  status : TradeStatus
}.

(** The two module-level tables [paperBalances] and [paperTrades]. *)
Record Ledger := mkLedger {
  paperBalances : gmap string TokenBalance;
  paperTrades : list PaperTrade
}.

(** Strict comparison of JS numbers, [a < b]. *)
Definition Qlt_bool (a b : Q) : bool := negb (Qle_bool b a).

(** ** Paper ledger operations *)

(** [getPaperBalance]: [paperBalances[chainName] || { usdc: 0, usdt: 0, timestamp: Date.now() }] *)
Definition getPaperBalance (m : gmap string TokenBalance) (chainName : string) (now : Z)
  : TokenBalance :=
  match m !! chainName with
  | Some b => b
  | None => mkTokenBalance 0 0 now
  end.

(** [updatePaperBalance]: overwrite the chain's record. *)
Definition updatePaperBalance (m : gmap string TokenBalance) (chainName : string)
  (usdc_ usdt_ : Q) (now : Z) : gmap string TokenBalance :=
  <[chainName := mkTokenBalance usdc_ usdt_ now]> m.

(** [addPaperTrade]: [paperTrades.push(...)] with a fresh id and timestamp. *)
Definition addPaperTrade (trades : list PaperTrade) (tradeId : string) (now : Z)
  (sourceChain_ targetChain_ : string) (sourcePrice_ targetPrice_ amount_ profit_ gasCost_
   netProfit_ : Q) (status_ : TradeStatus) : list PaperTrade :=
  trades ++ [mkPaperTrade tradeId sourceChain_ targetChain_ sourcePrice_ targetPrice_
               amount_ profit_ gasCost_ netProfit_ now status_].

(** [determineTargetToken] returns ['USDC' | 'USDT']. *)
Inductive Token := USDC | USDT.

Definition tokenSymbol (t : Token) : string :=
  match t with USDC => "USDC" | USDT => "USDT" end.

(** [determineTargetToken]: the token with the smaller combined balance,
    ['USDC'] when [totalUSDC <= totalUSDT]. *)
Definition determineTargetToken (m : gmap string TokenBalance) (now : Z) : Token :=
  let avalancheBalance := getPaperBalance m "avalanche" now in
  let sonicBalance := getPaperBalance m "sonic" now in
  let totalUSDC := usdc avalancheBalance + usdc sonicBalance in
  let totalUSDT := usdt avalancheBalance + usdt sonicBalance in
  if Qle_bool totalUSDC totalUSDT then USDC else USDT.

(** ** Pool data consumed by the cycle *)

(** [String.prototype.toLowerCase] on the ASCII range ('A'..'Z' to 'a'..'z'). *)
Definition ascii_toLowerCase (c : ascii) : ascii :=
  let n := nat_of_ascii c in
  if (65 <=? n)%nat && (n <=? 90)%nat then ascii_of_nat (n + 32) else c.

Fixpoint toLowerCase (s : string) : string :=
  match s with
  | EmptyString => EmptyString
  | String c s' => String (ascii_toLowerCase c) (toLowerCase s')
  end.

(** The part of [PoolMetadata] the cycle reads: [token0.symbol]. *)
Record PoolMetadata := mkPoolMetadata {
  token0_symbol : string
}.

(** An entry of [lastPrices]. *)
Record PoolPrice := mkPoolPrice {
  tokens0PerToken1 : Q;
  tokens1PerToken0 : Q
}.

(** What one call of [checkArbitrageOpportunities] receives from its
    collaborators: the pool metadata, the [lastPrices] entries after
    [getPoolPrice] (absent when never fetched), [getGasCostInUSD] for each
    chain, and the clock and random id used when a trade is recorded.
    [cycleExecGas] is [getGasCostInUSD] as re-evaluated at commit time. *)
Record CycleInput := mkCycleInput {
  metaAvalanche : PoolMetadata;
  metaSonic : PoolMetadata;
  priceAvalanche : option PoolPrice;
  priceSonic : option PoolPrice;
  gasAvalanche : Q;
  gasSonic : Q;
  cycleExecGas : string -> Q;
  cycleNow : Z;
  cycleTradeId : string
}.

Section Engine.

(** [CONFIG.PROFIT_THRESHOLD], read once from the environment. *)
Variable PROFIT_THRESHOLD : Q.

(** [calculateMinimumTradeAmount] *)
Definition calculateMinimumTradeAmount (buyPrice sellPrice totalGasUSD : Q)
  (isUSDCTargeted : bool) : Q :=
  let ATOMIC_UNIT := 1 # 1000000 in
  let requiredNetProfit := totalGasUSD + PROFIT_THRESHOLD + ATOMIC_UNIT in
  let priceRatio := if isUSDCTargeted then sellPrice / buyPrice else buyPrice / sellPrice in
  if Qle_bool priceRatio 1 then 0
  else
    let minTradeAmount := (requiredNetProfit + totalGasUSD) / (priceRatio - 1) in
    inject_Z (Qceiling (minTradeAmount * 1000000)) / 1000000.

(** [executeUSDCTargetedArbitrage]: start with USDC on [buyChain], end with
    more USDC on [sellChain]. [sourceGasUSD] and [targetGasUSD] are the values
    [getGasCostInUSD(buyChain)] and [getGasCostInUSD(sellChain)] return at
    commit time. *)
Definition executeUSDCTargetedArbitrage (s : Ledger) (now : Z) (tradeId : string)
  (buyChain sellChain : string) (buyPriceUSDCperUSDT sellPriceUSDCperUSDT tradeAmountUSDC : Q)
  (sourceGasUSD targetGasUSD : Q) : Ledger :=
  let sourceBalance := getPaperBalance (paperBalances s) buyChain now in
  let targetBalance := getPaperBalance (paperBalances s) sellChain now in
  if Qlt_bool (usdc sourceBalance) tradeAmountUSDC then s
  else
    let usdtReceived := tradeAmountUSDC / buyPriceUSDCperUSDT in
    let usdcReceived := usdtReceived * sellPriceUSDCperUSDT in
    let grossProfitUSDC := usdcReceived - tradeAmountUSDC in
    let gasCostUSD := sourceGasUSD + targetGasUSD in
    let netProfitUSD := grossProfitUSDC - gasCostUSD in
    if Qlt_bool PROFIT_THRESHOLD netProfitUSD then
      let newSourceBalance := mkTokenBalance (usdc sourceBalance - tradeAmountUSDC)
                                             (usdt sourceBalance) now in
      let newTargetBalance := mkTokenBalance (usdc targetBalance + usdcReceived)
                                             (usdt targetBalance) now in
      let trades := addPaperTrade (paperTrades s) tradeId now buyChain sellChain
                      buyPriceUSDCperUSDT sellPriceUSDCperUSDT tradeAmountUSDC
                      grossProfitUSDC gasCostUSD netProfitUSD executed in
      let m1 := updatePaperBalance (paperBalances s) buyChain
                  (usdc newSourceBalance) (usdt newSourceBalance) now in
      let m2 := updatePaperBalance m1 sellChain
                  (usdc newTargetBalance) (usdt newTargetBalance) now in
      mkLedger m2 trades
    else s.

(** [executeUSDTTargetedArbitrage]: start with USDT on [buyChain], end with
    more USDT on [sellChain]. *)
Definition executeUSDTTargetedArbitrage (s : Ledger) (now : Z) (tradeId : string)
  (buyChain sellChain : string) (buyPriceUSDTperUSDC sellPriceUSDTperUSDC tradeAmountUSDT : Q)
  (sourceGasUSD targetGasUSD : Q) : Ledger :=
  let sourceBalance := getPaperBalance (paperBalances s) buyChain now in
  let targetBalance := getPaperBalance (paperBalances s) sellChain now in
  if Qlt_bool (usdt sourceBalance) tradeAmountUSDT then s
  else
    let usdcReceived := tradeAmountUSDT * buyPriceUSDTperUSDC in
    let usdtReceived := usdcReceived / sellPriceUSDTperUSDC in
    let grossProfitUSDT := usdtReceived - tradeAmountUSDT in
    let gasCostUSD := sourceGasUSD + targetGasUSD in
    let netProfitUSD := grossProfitUSDT - gasCostUSD in
    if Qlt_bool PROFIT_THRESHOLD netProfitUSD then
      let newSourceBalance := mkTokenBalance (usdc sourceBalance)
                                             (usdt sourceBalance - tradeAmountUSDT) now in
      let newTargetBalance := mkTokenBalance (usdc targetBalance)
                                             (usdt targetBalance + usdtReceived) now in
      let trades := addPaperTrade (paperTrades s) tradeId now buyChain sellChain
                      buyPriceUSDTperUSDC sellPriceUSDTperUSDC tradeAmountUSDT
                      grossProfitUSDT gasCostUSD netProfitUSD executed in
      let m1 := updatePaperBalance (paperBalances s) buyChain
                  (usdc newSourceBalance) (usdt newSourceBalance) now in
      let m2 := updatePaperBalance m1 sellChain
                  (usdc newTargetBalance) (usdt newTargetBalance) now in
      mkLedger m2 trades
    else s.

(** Outcome of the sizing and profitability checks of
    [checkUSDCTargetedArbitrage] / [checkUSDTTargetedArbitrage]; each
    non-[Execute] outcome is one of the early [return]s with its log line. *)
Inductive CheckOutcome :=
  | RatioNotProfitable         (* "not profitable: price ratio ... <= 1" *)
  | InsufficientBalance        (* "Insufficient USDC/USDT on ..." *)
  | NotProfitableAfterGas      (* "not profitable after gas costs" *)
  | Execute (tradeAmount : Q).

(** The sizing part of [checkUSDCTargetedArbitrage] (lines 694-733);
    [available] is [sourceBalance.usdc]. *)
Definition checkUSDCTargetedDecision (available buyPriceUSDCperUSDT sellPriceUSDCperUSDT
  totalGasUSD : Q) : CheckOutcome :=
  let minTradeAmountUSDC :=
    calculateMinimumTradeAmount buyPriceUSDCperUSDT sellPriceUSDCperUSDT totalGasUSD true in
  if Qeq_bool minTradeAmountUSDC 0 then RatioNotProfitable
  else
    let maxTradeAmountUSDC := inject_Z (Qfloor (available * (1 # 2))) in
    let absoluteMinTradeAmountUSDC := 100 in
    if Qlt_bool maxTradeAmountUSDC (Qmax minTradeAmountUSDC absoluteMinTradeAmountUSDC)
    then InsufficientBalance
    else
      let tradeAmountUSDC :=
        Qmin maxTradeAmountUSDC (Qmax minTradeAmountUSDC absoluteMinTradeAmountUSDC) in
      let usdtReceived := tradeAmountUSDC / buyPriceUSDCperUSDT in
      let usdcReceived := usdtReceived * sellPriceUSDCperUSDT in
      let grossProfitUSDC := usdcReceived - tradeAmountUSDC in
      let netProfitUSD := grossProfitUSDC - totalGasUSD in
      if Qlt_bool PROFIT_THRESHOLD netProfitUSD then Execute tradeAmountUSDC
      else NotProfitableAfterGas.

(** The sizing part of [checkUSDTTargetedArbitrage] (lines 749-789). *)
Definition checkUSDTTargetedDecision (available buyPriceUSDTperUSDC sellPriceUSDTperUSDC
  totalGasUSD : Q) : CheckOutcome :=
  let minTradeAmountUSDT :=
    calculateMinimumTradeAmount buyPriceUSDTperUSDC sellPriceUSDTperUSDC totalGasUSD false in
  if Qeq_bool minTradeAmountUSDT 0 then RatioNotProfitable
  else
    let maxTradeAmountUSDT := inject_Z (Qfloor (available * (1 # 2))) in
    let absoluteMinTradeAmountUSDT := 100 in
    if Qlt_bool maxTradeAmountUSDT (Qmax minTradeAmountUSDT absoluteMinTradeAmountUSDT)
    then InsufficientBalance
    else
      let tradeAmountUSDT :=
        Qmin maxTradeAmountUSDT (Qmax minTradeAmountUSDT absoluteMinTradeAmountUSDT) in
      let usdcReceived := tradeAmountUSDT * buyPriceUSDTperUSDC in
      let usdtReceived := usdcReceived / sellPriceUSDTperUSDC in
      let grossProfitUSDT := usdtReceived - tradeAmountUSDT in
      let netProfitUSD := grossProfitUSDT - totalGasUSD in
      if Qlt_bool PROFIT_THRESHOLD netProfitUSD then Execute tradeAmountUSDT
      else NotProfitableAfterGas.

(** [checkUSDCTargetedArbitrage]; [execGas] is [getGasCostInUSD] as
    evaluated again inside [executeUSDCTargetedArbitrage]. *)
Definition checkUSDCTargetedArbitrage (s : Ledger) (now : Z) (tradeId : string)
  (execGas : string -> Q) (buyChain sellChain : string)
  (buyPriceUSDCperUSDT sellPriceUSDCperUSDT totalGasUSD : Q) : Ledger :=
  let sourceBalance := getPaperBalance (paperBalances s) buyChain now in
  match checkUSDCTargetedDecision (usdc sourceBalance) buyPriceUSDCperUSDT
          sellPriceUSDCperUSDT totalGasUSD with
  | Execute tradeAmountUSDC =>
      executeUSDCTargetedArbitrage s now tradeId buyChain sellChain buyPriceUSDCperUSDT
        sellPriceUSDCperUSDT tradeAmountUSDC (execGas buyChain) (execGas sellChain)
  | _ => s
  end.

(** [checkUSDTTargetedArbitrage] *)
Definition checkUSDTTargetedArbitrage (s : Ledger) (now : Z) (tradeId : string)
  (execGas : string -> Q) (buyChain sellChain : string)
  (buyPriceUSDTperUSDC sellPriceUSDTperUSDC totalGasUSD : Q) : Ledger :=
  let sourceBalance := getPaperBalance (paperBalances s) buyChain now in
  match checkUSDTTargetedDecision (usdt sourceBalance) buyPriceUSDTperUSDC
          sellPriceUSDTperUSDC totalGasUSD with
  | Execute tradeAmountUSDT =>
      executeUSDTTargetedArbitrage s now tradeId buyChain sellChain buyPriceUSDTperUSDC
        sellPriceUSDTperUSDC tradeAmountUSDT (execGas buyChain) (execGas sellChain)
  | _ => s
  end.

(** [checkArbitrageOpportunities] (arbitrage.ts lines 502-591). *)
Definition checkArbitrageOpportunities (s : Ledger) (inp : CycleInput) : Ledger :=
  let now := cycleNow inp in
  let targetToken := determineTargetToken (paperBalances s) now in
  let avalancheTargetIndex :=
    if String.eqb (toLowerCase (token0_symbol (metaAvalanche inp)))
                  (toLowerCase (tokenSymbol targetToken)) then 0%nat else 1%nat in
  let sonicTargetIndex :=
    if String.eqb (toLowerCase (token0_symbol (metaSonic inp)))
                  (toLowerCase (tokenSymbol targetToken)) then 0%nat else 1%nat in
  match priceAvalanche inp, priceSonic inp with
  | Some avalanchePrice, Some sonicPrice =>
      let totalGasUSD := gasAvalanche inp + gasSonic inp in
      match targetToken with
      | USDT =>
          let avalanchePriceUSDCperUSDT :=
            if Nat.eqb avalancheTargetIndex 1 then tokens0PerToken1 avalanchePrice
            else tokens1PerToken0 avalanchePrice in
          let sonicPriceUSDCperUSDT :=
            if Nat.eqb sonicTargetIndex 1 then tokens0PerToken1 sonicPrice
            else tokens1PerToken0 sonicPrice in
          let buyChain := if Qlt_bool avalanchePriceUSDCperUSDT sonicPriceUSDCperUSDT
                          then "avalanche" else "sonic" in
          let sellChain := if Qlt_bool avalanchePriceUSDCperUSDT sonicPriceUSDCperUSDT
                           then "sonic" else "avalanche" in
          let buyPriceUSDCperUSDT := Qmin avalanchePriceUSDCperUSDT sonicPriceUSDCperUSDT in
          let sellPriceUSDCperUSDT := Qmax avalanchePriceUSDCperUSDT sonicPriceUSDCperUSDT in
          checkUSDCTargetedArbitrage s now (cycleTradeId inp) (cycleExecGas inp)
            buyChain sellChain buyPriceUSDCperUSDT sellPriceUSDCperUSDT totalGasUSD
      | USDC =>
          let avalanchePriceUSDTperUSDC :=
            if Nat.eqb avalancheTargetIndex 0 then tokens0PerToken1 avalanchePrice
            else tokens1PerToken0 avalanchePrice in
          let sonicPriceUSDTperUSDC :=
            if Nat.eqb sonicTargetIndex 0 then tokens0PerToken1 sonicPrice
            else tokens1PerToken0 sonicPrice in
          let buyChain := if Qlt_bool avalanchePriceUSDTperUSDC sonicPriceUSDTperUSDC
                          then "avalanche" else "sonic" in
          let sellChain := if Qlt_bool avalanchePriceUSDTperUSDC sonicPriceUSDTperUSDC
                           then "sonic" else "avalanche" in
          let buyPriceUSDTperUSDC := Qmin avalanchePriceUSDTperUSDC sonicPriceUSDTperUSDC in
          let sellPriceUSDTperUSDC := Qmax avalanchePriceUSDTperUSDC sonicPriceUSDTperUSDC in
          checkUSDTTargetedArbitrage s now (cycleTradeId inp) (cycleExecGas inp)
            buyChain sellChain buyPriceUSDTperUSDC sellPriceUSDTperUSDC totalGasUSD
      end
  | _, _ => s
  end.

(** The [while (true)] loop of [monitorPrices], one cycle per input. *)
Fixpoint runCycles (s : Ledger) (inps : list CycleInput) : Ledger :=
  match inps with
  | [] => s
  | inp :: rest => runCycles (checkArbitrageOpportunities s inp) rest
  end.

End Engine.

(** The seed allocation of [paperBalances]. *)
Definition seedLedger (now : Z) : Ledger :=
  mkLedger (<["sonic" := mkTokenBalance 50000 50000 now]>
              (<["avalanche" := mkTokenBalance 50000 50000 now]> ∅)) [].

(** Combined balances across both chains, as [logBalances] adds them. *)
Definition totalUSDC (m : gmap string TokenBalance) : Q :=
  usdc (getPaperBalance m "avalanche" 0) + usdc (getPaperBalance m "sonic" 0).
Definition totalUSDT (m : gmap string TokenBalance) : Q :=
  usdt (getPaperBalance m "avalanche" 0) + usdt (getPaperBalance m "sonic" 0).
Definition totalValue (m : gmap string TokenBalance) : Q := totalUSDC m + totalUSDT m.

(** ** Gas cost in USD (getters.ts lines 149-237) *)

(** Result of an [async] function: a value, or a thrown [Error]. *)
Inductive Result (A : Type) := Ok (a : A) | Throw (msg : string).
Arguments Ok {A} a.
Arguments Throw {A} msg.

(** An entry of [gasCosts], filled by [estimateSwapGasCost]. *)
Record GasCost := mkGasCost {
  gasPrice : Z;
  estimatedGas : Z;
  totalCost : Z;
  gas_timestamp : Z
}.

(** An entry of [priceCache]. *)
Record CachedPrice := mkCachedPrice {
  cached_price : Q;
  cached_timestamp : Z
}.

(** [CACHE_DURATION = 30000] (milliseconds). *)
Definition CACHE_DURATION : Z := 30000.

(** [PRICE_FEEDS[chain]?.[asset]] *)
Definition PRICE_FEEDS (chain asset : string) : option string :=
  if String.eqb chain "avalanche" then
    if String.eqb asset "AVAX" then Some "0x0A77230d17318075983913bC2145DB16C7366156" else None
  else if String.eqb chain "sonic" then
    if String.eqb asset "S" then Some "0xc76dFb89fF298145b417d221B2c747d84952e01d" else None
  else None.

(** [fallbackPrices[chain]?.[asset]]: [avalanche.AVAX = 25.0], [sonic.S = .0]. *)
Definition fallbackPrices (chain asset : string) : option Q :=
  if String.eqb chain "avalanche" then
    if String.eqb asset "AVAX" then Some 25 else None
  else if String.eqb chain "sonic" then
    if String.eqb asset "S" then Some 0 else None
  else None.

(** JavaScript truthiness of a number: neither [0] nor [NaN]. *)
Definition truthyNumber (x : Q) : bool := negb (Qeq_bool x 0).

(** [getUSDPrice]. [now] is [Date.now()]; [feedRead] is what the Chainlink
    reads [latestRoundData()] and [decimals()] return ([None] when the RPC
    call throws): the answer and the decimals. Returns the result and the
    new [priceCache]. *)
Definition getUSDPrice (priceCache : gmap string CachedPrice) (now : Z)
  (feedRead : option (Z * nat)) (chain asset : string)
  : Result Q * gmap string CachedPrice :=
  let cacheKey := chain +:+ "-" +:+ asset in
  let fromFeed :=
    match priceCache !! cacheKey with
    | Some e => if Z.ltb (now - cached_timestamp e) CACHE_DURATION
                then Some (Ok (cached_price e), priceCache) else None
    | None => None
    end in
  match fromFeed with
  | Some r => r
  | None =>
      let tried :=
        match PRICE_FEEDS chain asset with
        | None => None
        | Some _ =>
            match feedRead with
            | None => None
            | Some (answer, decimals) =>
                let price := inject_Z answer / inject_Z (10 ^ Z.of_nat decimals) in
                Some (price, <[cacheKey := mkCachedPrice price now]> priceCache)
            end
        end in
      match tried with
      | Some (price, cache') => (Ok price, cache')
      | None =>
          (* catch: fall back to the hard-coded prices *)
          match fallbackPrices chain asset with
          | Some fallbackPrice =>
              if truthyNumber fallbackPrice then (Ok fallbackPrice, priceCache)
              else (Throw ("No price available for " +:+ asset +:+ " on " +:+ chain), priceCache)
          | None => (Throw ("No price available for " +:+ asset +:+ " on " +:+ chain), priceCache)
          end
      end
  end.

(** [getGasCostInUSD] *)
Definition getGasCostInUSD (gasCosts : gmap string GasCost)
  (priceCache : gmap string CachedPrice) (now : Z) (feedRead : option (Z * nat))
  (chain : string) : Q * gmap string CachedPrice :=
  match gasCosts !! chain with
  | None => (0, priceCache)
  | Some gasCost =>
      let gasCostEth := inject_Z (totalCost gasCost) / inject_Z (10 ^ 18) in
      let nativeToken := if String.eqb chain "avalanche" then "AVAX" else "S" in
      match getUSDPrice priceCache now feedRead chain nativeToken with
      | (Ok nativeTokenPrice, cache') => (gasCostEth * nativeTokenPrice, cache')
      | (Throw _, cache') => (0, cache')
      end
  end.

(** Sum of the gross profits of a list of trade records. *)
Definition sumProfit (l : list PaperTrade) : Q := fold_right (fun t acc => profit t + acc) 0 l.

(** Every per-chain balance field is non-negative. *)
Definition balancesNonneg (m : gmap string TokenBalance) : bool :=
  forallb (fun kv => Qle_bool 0 (usdc kv.2) && Qle_bool 0 (usdt kv.2)) (map_to_list m).

(** A [lastPrices] entry holds non-negative prices ([calculatePriceFromSqrtPriceX96]
    computes a ratio of squares and its inverse). *)
Definition priceNonneg (p : option PoolPrice) : bool :=
  match p with
  | None => true
  | Some pp => Qle_bool 0 (tokens0PerToken1 pp) && Qle_bool 0 (tokens1PerToken0 pp)
  end.

Definition cycleInputNonneg (inp : CycleInput) : bool :=
  priceNonneg (priceAvalanche inp) && priceNonneg (priceSonic inp).

(** The break-even size as the specification words it (4.4, step 3):
    [(gasCost + profitThreshold + 1e-6) / (ratio - 1)] rounded up to 1e-6,
    for the USDC-accumulating direction. Compared with
    [calculateMinimumTradeAmount]. *)
Definition minAmountAsSpecified (profitThreshold buyPrice sellPrice gasCost : Q) : Q :=
  let ratio := sellPrice / buyPrice in
  if Qle_bool ratio 1 then 0
  else inject_Z (Qceiling ((gasCost + profitThreshold + (1 # 1000000)) / (ratio - 1) * 1000000))
       / 1000000.

(** ** Sample inputs *)

(** A ledger holding more USDC than USDT across the two chains. *)
Definition usdcHeavyLedger : Ledger :=
  mkLedger (<["sonic" := mkTokenBalance 50000 50000 0]>
              (<["avalanche" := mkTokenBalance 60000 50000 0]> ∅)) [].

(** Both pools list USDC as token0; USDC per USDT is 0.99 on avalanche and
    1.01 on sonic; each chain's gas costs $0.05. *)
Definition spreadInput : CycleInput :=
  mkCycleInput (mkPoolMetadata "USDC") (mkPoolMetadata "USDC")
    (Some (mkPoolPrice (99 # 100) (100 # 99))) (Some (mkPoolPrice (101 # 100) (100 # 101)))
    (1 # 20) (1 # 20) (fun _ => 1 # 20) 7 "trade_7_a".

(** Gas data as [estimateSwapGasCost] stores it: 1 gwei on both chains. *)
Definition sampleGasCosts : gmap string GasCost :=
  <["sonic" := mkGasCost 1000000000 250000 250000000000000 0]>
    (<["avalanche" := mkGasCost 1000000000 300000 300000000000000 0]> ∅).

(** ** Retries, gas data and price storage (utils, getters.ts) *)

(** [withRetry] (utils): [for (let i = 0; i <= maxRetries; i++)] it tries
    [fn()], rethrowing the error of the attempt with [i === maxRetries];
    [fn i] is the outcome of attempt [i] and [fuel] the iterations the loop
    has left ([sleep(delay)] between attempts has no effect on the result). *)
Fixpoint withRetryLoop {A : Type} (fn : nat -> Result A) (maxRetries i fuel : nat) : Result A :=
  match fuel with
  | O => Throw "Max retries exceeded"
  | S fuel' =>
      match fn i with
      | Ok a => Ok a
      | Throw e => if Nat.eqb i maxRetries then Throw e
                   else withRetryLoop fn maxRetries (S i) fuel'
      end
  end.

Definition withRetry {A : Type} (fn : nat -> Result A) (maxRetries : nat) : Result A :=
  withRetryLoop fn maxRetries 0 (S maxRetries).

(** [CONFIG.MAX_RETRIES] *)
Definition MAX_RETRIES : nat := 3.

(** [estimatedGasLimits[chainName]] in [estimateSwapGasCost]. *)
Definition estimatedGasLimits (chainName : string) : option Z :=
  if String.eqb chainName "avalanche" then Some 300000%Z
  else if String.eqb chainName "sonic" then Some 250000%Z
  else None.

(** [estimateSwapGasCost]: [gasPriceAttempts] are the outcomes of the
    attempts of [client.getGasPrice()] under [withRetry]; the [catch] only
    logs, leaving [gasCosts] as it was. *)
Definition estimateSwapGasCost (gasCosts : gmap string GasCost)
  (gasPriceAttempts : nat -> Result Z) (chainName : string) (now : Z) : gmap string GasCost :=
  match withRetry gasPriceAttempts MAX_RETRIES with
  | Ok gasPrice_ =>
      let estimatedGas_ :=
        match estimatedGasLimits chainName with
        | Some g => if Z.eqb g 0 then 300000%Z else g   (* [|| 300000n] *)
        | None => 300000%Z
        end in
      let totalCost_ := (gasPrice_ * estimatedGas_)%Z in
      <[chainName := mkGasCost gasPrice_ estimatedGas_ totalCost_ now]> gasCosts
  | Throw _ => gasCosts
  end.

(** The keys of [clients] (clients.ts). *)
Definition hasClient (chainName : string) : bool :=
  String.eqb chainName "avalanche" || String.eqb chainName "sonic".

(** [getAllChainData]: [getBlockNumber] and [getGasPrice] only log; the state
    it changes is the [gasCosts] entry [estimateSwapGasCost] writes. *)
Definition getAllChainData (gasCosts : gmap string GasCost)
  (gasPriceAttempts : nat -> Result Z) (chainName : string) (now : Z) : gmap string GasCost :=
  if hasClient chainName then estimateSwapGasCost gasCosts gasPriceAttempts chainName now
  else gasCosts.

(** [gasCosts[chain]?.totalCost || 0n] *)
Definition totalCostOr0 (gasCosts : gmap string GasCost) (chain : string) : Z :=
  match gasCosts !! chain with
  | Some g => if Z.eqb (totalCost g) 0 then 0%Z else totalCost g
  | None => 0%Z
  end.

(** [calculateTotalArbitrageGasCost] *)
Definition calculateTotalArbitrageGasCost (gasCosts : gmap string GasCost) : Z :=
  let avalancheCost := totalCostOr0 gasCosts "avalanche" in
  let sonicCost := totalCostOr0 gasCosts "sonic" in
  (avalancheCost + sonicCost)%Z.

(** Every stored [totalCost] is non-negative. *)
Definition gasCostsNonneg (gasCosts : gmap string GasCost) : bool :=
  forallb (fun kv => Z.leb 0 (totalCost kv.2)) (map_to_list gasCosts).

(** Every cached USD price is non-negative. *)
Definition priceCacheNonneg (priceCache : gmap string CachedPrice) : bool :=
  forallb (fun kv => Qle_bool 0 (cached_price kv.2)) (map_to_list priceCache).

(** [calculatePriceFromSqrtPriceX96]:
    [Number(s * s * 10n ** d1) / Number(Q96 * Q96 * 10n ** d0)]. *)
Definition calculatePriceFromSqrtPriceX96 (sqrtPriceX96 : Z) (token0Decimals token1Decimals : nat)
  : Q :=
  let Q96 := (2 ^ 96)%Z in
  inject_Z (sqrtPriceX96 * sqrtPriceX96 * 10 ^ Z.of_nat token1Decimals)
  / inject_Z (Q96 * Q96 * 10 ^ Z.of_nat token0Decimals).

(** [token0] / [token1] of [interface PoolMetadata]. *)
Record TokenInfo := mkTokenInfo {
  token_symbol : string;
  token_decimals : nat;
  token_address : string
}.

(** The full [interface PoolMetadata] of getters.ts. *)
Record PoolMetadataRecord := mkPoolMetadataRecord {
  pool_name : string;
  pool_chain : string;
  pool_address : string;
  token0 : TokenInfo;
  token1 : TokenInfo
}.

(** An entry of [lastPrices]. *)
Record LastPrice := mkLastPrice {
  lp_price : PoolPrice;
  lp_timestamp : Z
}.

(** [getPharaohPoolPrice] (and [getShadowPoolPrice], which differs only in its
    log text): [slot0Read] is [slot0()[0]], [None] when the call throws; the
    [catch] only logs. [targetToken] only selects what is logged. Returns the
    new [lastPrices]. *)
Definition getPharaohPoolPrice (lastPrices : gmap string LastPrice)
  (poolMetadata : gmap string PoolMetadataRecord) (chainName : string)
  (slot0Read : option Z) (now : Z) : gmap string LastPrice :=
  match poolMetadata !! chainName with
  | None => lastPrices   (* "No pool metadata found" *)
  | Some metadata =>
      match slot0Read with
      | None => lastPrices
      | Some sqrtPriceX96 =>
          let price := calculatePriceFromSqrtPriceX96 sqrtPriceX96
                         (token_decimals (token0 metadata)) (token_decimals (token1 metadata)) in
          <[chainName := mkLastPrice (mkPoolPrice (1 / price) price) now]> lastPrices
      end
  end.

(** What the contract reads of [getPoolMetadata] return. *)
Record PoolReads := mkPoolReads {
  read_token0 : string;
  read_token1 : string;
  read_symbol0 : string;
  read_decimals0 : nat;
  read_symbol1 : string;
  read_decimals1 : nat
}.

(** [getPoolMetadata] with its [poolMetadataCache]; [reads] is [Throw e] when
    one of the reads throws ([e] is rethrown). *)
Definition getPoolMetadata (poolMetadataCache : gmap string PoolMetadataRecord)
  (poolName chainName poolAddress : string) (reads : Result PoolReads)
  : Result PoolMetadataRecord * gmap string PoolMetadataRecord :=
  let cacheKey := chainName +:+ "-" +:+ poolAddress in
  match poolMetadataCache !! cacheKey with
  | Some cached => (Ok cached, poolMetadataCache)
  | None =>
      match reads with
      | Throw e => (Throw e, poolMetadataCache)
      | Ok r =>
          let metadata :=
            mkPoolMetadataRecord poolName chainName poolAddress
              (mkTokenInfo (read_symbol0 r) (read_decimals0 r) (read_token0 r))
              (mkTokenInfo (read_symbol1 r) (read_decimals1 r) (read_token1 r)) in
          (Ok metadata, <[cacheKey := metadata]> poolMetadataCache)
      end
  end.

(** [getShadowPoolPrice] is the code of [getPharaohPoolPrice] with other log
    text. *)
Definition getShadowPoolPrice (lastPrices : gmap string LastPrice)
  (poolMetadata : gmap string PoolMetadataRecord) (chainName : string)
  (slot0Read : option Z) (now : Z) : gmap string LastPrice :=
  getPharaohPoolPrice lastPrices poolMetadata chainName slot0Read now.

Definition PHARAOH_POOL_AVALANCHE : string := "0x184b487c7e811f1d9734d49e78293e00b3768079".
Definition SHADOW_POOL_SONIC : string := "0x9053fe060f412ad5677f934f89e07524343ee8e7".

(** [getAllPoolMetadata]: both [getPoolMetadata] calls run under
    [Promise.all]; each completes and caches its own result even when the
    other rejects. Their cache keys differ, so threading the cache from the
    Pharaoh call into the Shadow call changes no lookup. When both reject,
    [shadowRejectsFirst] says whose error [Promise.all] rejects with; the
    [catch] rethrows it. *)
Definition getAllPoolMetadata (poolMetadataCache : gmap string PoolMetadataRecord)
  (readsP readsS : Result PoolReads) (shadowRejectsFirst : bool)
  : Result (gmap string PoolMetadataRecord) * gmap string PoolMetadataRecord :=
  let (rP, c1) := getPoolMetadata poolMetadataCache "Pharaoh" "avalanche"
                    PHARAOH_POOL_AVALANCHE readsP in
  let (rS, c2) := getPoolMetadata c1 "Shadow" "sonic" SHADOW_POOL_SONIC readsS in
  match rP, rS with
  | Ok pharaohMetadata, Ok shadowMetadata =>
      (Ok (<["avalanche" := pharaohMetadata]> (<["sonic" := shadowMetadata]> ∅)), c2)
  | Throw e, Ok _ => (Throw e, c2)
  | Ok _, Throw e => (Throw e, c2)
  | Throw eP, Throw eS => (Throw (if shadowRejectsFirst then eS else eP), c2)
  end.

(** [getAllPoolPrices]: the Pharaoh price on avalanche, then the Shadow price
    on sonic ([Date.now()] read as [nowA] and [nowS]); a rejection of
    [getAllPoolMetadata] is caught and only logged. Returns [lastPrices] and
    [poolMetadataCache]. *)
Definition getAllPoolPrices (lastPrices : gmap string LastPrice)
  (poolMetadataCache : gmap string PoolMetadataRecord)
  (readsP readsS : Result PoolReads) (shadowRejectsFirst : bool)
  (slot0A slot0S : option Z) (nowA nowS : Z)
  : gmap string LastPrice * gmap string PoolMetadataRecord :=
  match getAllPoolMetadata poolMetadataCache readsP readsS shadowRejectsFirst with
  | (Ok poolMetadata, c') =>
      let lp1 := getPharaohPoolPrice lastPrices poolMetadata "avalanche" slot0A nowA in
      (getShadowPoolPrice lp1 poolMetadata "sonic" slot0S nowS, c')
  | (Throw _, c') => (lastPrices, c')
  end.

(** ** Portfolio statistics and the legacy entry point (arbitrage.ts) *)

(** [calculateTotalPaperValue]: [usdc * 1.0 + usdt * 1.0] summed over
    [Object.entries(paperBalances)]. *)
Definition paperValueStep (totalValue_ : Q) (kv : string * TokenBalance) : Q :=
  let usdcValue := usdc kv.2 * 1 in   (* USDC = $1 *)
  let usdtValue := usdt kv.2 * 1 in   (* USDT = $1 *)
  totalValue_ + (usdcValue + usdtValue).

Definition calculateTotalPaperValue (paperBalances_ : gmap string TokenBalance) : Q :=
  fold_left paperValueStep (map_to_list paperBalances_) 0.

(** The object [getPaperTradingStats] returns. *)
Record PaperTradingStats := mkPaperTradingStats {
  totalTrades : nat;
  profitableTrades : nat;
  totalProfit : Q;
  stats_totalValue : Q;
  winRate : Q
}.

(** [getPaperTradingStats] *)
Definition getPaperTradingStats (s : Ledger) : PaperTradingStats :=
  let totalTrades_ := length (paperTrades s) in
  let profitableTrades_ :=
    length (List.filter (fun trade => Qlt_bool 0 (netProfit trade)) (paperTrades s)) in
  let totalProfit_ := fold_left (fun sum trade => sum + netProfit trade) (paperTrades s) 0 in
  let totalValue_ := calculateTotalPaperValue (paperBalances s) in
  let winRate_ :=
    if (0 <? totalTrades_)%nat
    then (inject_Z (Z.of_nat profitableTrades_) / inject_Z (Z.of_nat totalTrades_)) * 100
    else 0 in
  mkPaperTradingStats totalTrades_ profitableTrades_ totalProfit_ totalValue_ winRate_.

Section Legacy.

Variable PROFIT_THRESHOLD : Q.

(** [executeArbitrage] (deprecated):
    [executeUSDCTargetedArbitrage(sourceChain, targetChain, sourcePrice, targetPrice, 1000)];
    [tokenAddress] is not used. *)
Definition executeArbitrage (s : Ledger) (now : Z) (tradeId : string)
  (sourceChain_ targetChain_ : string) (sourcePrice_ targetPrice_ : Q)
  (sourceGasUSD targetGasUSD : Q) : Ledger :=
  executeUSDCTargetedArbitrage PROFIT_THRESHOLD s now tradeId sourceChain_ targetChain_
    sourcePrice_ targetPrice_ 1000 sourceGasUSD targetGasUSD.

End Legacy.

(** Metadata of the Pharaoh pool on avalanche as [getPoolMetadata] stores
    it, with two 6-decimal tokens. *)
Definition pharaohMetadata : PoolMetadataRecord :=
  mkPoolMetadataRecord "Pharaoh" "avalanche" "0x184b487c7e811f1d9734d49e78293e00b3768079"
    (mkTokenInfo "USDC" 6 "token0") (mkTokenInfo "USDT" 6 "token1").

(** Contract reads of a USDC/USDT pool with 6-decimal tokens. *)
Definition usdcUsdtReads : PoolReads :=
  mkPoolReads "token0" "token1" "USDC" 6 "USDT" 6.

(** Metadata of the Shadow pool on sonic as [getPoolMetadata] builds it from
    [usdcUsdtReads]. *)
Definition shadowSampleMetadata : PoolMetadataRecord :=
  mkPoolMetadataRecord "Shadow" "sonic" "0x9053fe060f412ad5677f934f89e07524343ee8e7"
    (mkTokenInfo "USDC" 6 "token0") (mkTokenInfo "USDT" 6 "token1").

(** A price cache whose avalanche AVAX entry was written at time 0. *)
Definition staleAvaxCache : gmap string CachedPrice :=
  <["avalanche-AVAX" := mkCachedPrice 20 0]> ∅.

(** ** Ledger lemmas *)

Lemma Qlt_bool_true (a b : Q) : Qlt_bool a b = true <-> a < b.
Proof.
  unfold Qlt_bool. rewrite negb_true_iff.
  split; intros H.
  - apply Qnot_le_lt. intros Hle. apply Qle_bool_iff in Hle. congruence.
  - destruct (Qle_bool b a) eqn:E; [|reflexivity].
    apply Qle_bool_iff in E. exfalso. apply (Qlt_not_le a b); assumption.
Qed.

Lemma Qlt_bool_false (a b : Q) : Qlt_bool a b = false <-> b <= a.
Proof.
  unfold Qlt_bool. rewrite negb_false_iff. apply Qle_bool_iff.
Qed.

Lemma getPaperBalance_insert (m : gmap string TokenBalance) (k c : string)
  (v : TokenBalance) (now : Z) :
  getPaperBalance (<[k := v]> m) c now =
  if decide (k = c) then v else getPaperBalance m c now.
Proof.
  unfold getPaperBalance. rewrite lookup_insert.
  destruct (decide (k = c)); reflexivity.
Qed.

Lemma usdc_getPaperBalance_now (m : gmap string TokenBalance) (c : string) (n1 n2 : Z) :
  usdc (getPaperBalance m c n1) = usdc (getPaperBalance m c n2).
Proof. unfold getPaperBalance. destruct (m !! c); reflexivity. Qed.

Lemma usdt_getPaperBalance_now (m : gmap string TokenBalance) (c : string) (n1 n2 : Z) :
  usdt (getPaperBalance m c n1) = usdt (getPaperBalance m c n2).
Proof. unfold getPaperBalance. destruct (m !! c); reflexivity. Qed.

Section EngineFacts.

Variable PROFIT_THRESHOLD : Q.

(** The three outcomes of [executeUSDCTargetedArbitrage]: nothing happens, or
    the record is appended and both balances are written. *)
Lemma executeUSDC_cases (s : Ledger) (now : Z) (tradeId buyChain sellChain : string)
  (bp sp a g1 g2 : Q) :
  let sb := getPaperBalance (paperBalances s) buyChain now in
  let tb := getPaperBalance (paperBalances s) sellChain now in
  let received := a / bp * sp in
  executeUSDCTargetedArbitrage PROFIT_THRESHOLD s now tradeId buyChain sellChain bp sp a g1 g2 = s
  \/ (a <= usdc sb /\ PROFIT_THRESHOLD < received - a - (g1 + g2) /\
      executeUSDCTargetedArbitrage PROFIT_THRESHOLD s now tradeId buyChain sellChain bp sp a g1 g2 =
      mkLedger (<[sellChain := mkTokenBalance (usdc tb + received) (usdt tb) now]>
                  (<[buyChain := mkTokenBalance (usdc sb - a) (usdt sb) now]> (paperBalances s)))
               (paperTrades s ++ [mkPaperTrade tradeId buyChain sellChain bp sp a (received - a)
                                    (g1 + g2) (received - a - (g1 + g2)) now executed])).
Proof.
  intros sb tb received. unfold executeUSDCTargetedArbitrage.
  fold sb tb. fold received.
  destruct (Qlt_bool (usdc sb) a) eqn:E1; [left; reflexivity|].
  destruct (Qlt_bool PROFIT_THRESHOLD (received - a - (g1 + g2))) eqn:E2; [|left; reflexivity].
  right. apply Qlt_bool_false in E1. apply Qlt_bool_true in E2.
  split; [exact E1|]. split; [exact E2|]. reflexivity.
Qed.

Lemma executeUSDT_cases (s : Ledger) (now : Z) (tradeId buyChain sellChain : string)
  (bp sp a g1 g2 : Q) :
  let sb := getPaperBalance (paperBalances s) buyChain now in
  let tb := getPaperBalance (paperBalances s) sellChain now in
  let received := a * bp / sp in
  executeUSDTTargetedArbitrage PROFIT_THRESHOLD s now tradeId buyChain sellChain bp sp a g1 g2 = s
  \/ (a <= usdt sb /\ PROFIT_THRESHOLD < received - a - (g1 + g2) /\
      executeUSDTTargetedArbitrage PROFIT_THRESHOLD s now tradeId buyChain sellChain bp sp a g1 g2 =
      mkLedger (<[sellChain := mkTokenBalance (usdc tb) (usdt tb + received) now]>
                  (<[buyChain := mkTokenBalance (usdc sb) (usdt sb - a) now]> (paperBalances s)))
               (paperTrades s ++ [mkPaperTrade tradeId buyChain sellChain bp sp a (received - a)
                                    (g1 + g2) (received - a - (g1 + g2)) now executed])).
Proof.
  intros sb tb received. unfold executeUSDTTargetedArbitrage.
  fold sb tb. fold received.
  destruct (Qlt_bool (usdt sb) a) eqn:E1; [left; reflexivity|].
  destruct (Qlt_bool PROFIT_THRESHOLD (received - a - (g1 + g2))) eqn:E2; [|left; reflexivity].
  right. apply Qlt_bool_false in E1. apply Qlt_bool_true in E2.
  split; [exact E1|]. split; [exact E2|]. reflexivity.
Qed.

Lemma checkUSDC_cases (s : Ledger) (now : Z) (tradeId : string) (execGas : string -> Q)
  (buyChain sellChain : string) (bp sp gas : Q) :
  checkUSDCTargetedArbitrage PROFIT_THRESHOLD s now tradeId execGas buyChain sellChain bp sp gas = s
  \/ exists a,
      checkUSDCTargetedDecision PROFIT_THRESHOLD
        (usdc (getPaperBalance (paperBalances s) buyChain now)) bp sp gas = Execute a /\
      checkUSDCTargetedArbitrage PROFIT_THRESHOLD s now tradeId execGas buyChain sellChain bp sp gas =
      executeUSDCTargetedArbitrage PROFIT_THRESHOLD s now tradeId buyChain sellChain bp sp a
        (execGas buyChain) (execGas sellChain).
Proof.
  unfold checkUSDCTargetedArbitrage.
  destruct (checkUSDCTargetedDecision _ _ _ _ _); eauto.
Qed.

Lemma checkUSDT_cases (s : Ledger) (now : Z) (tradeId : string) (execGas : string -> Q)
  (buyChain sellChain : string) (bp sp gas : Q) :
  checkUSDTTargetedArbitrage PROFIT_THRESHOLD s now tradeId execGas buyChain sellChain bp sp gas = s
  \/ exists a,
      checkUSDTTargetedDecision PROFIT_THRESHOLD
        (usdt (getPaperBalance (paperBalances s) buyChain now)) bp sp gas = Execute a /\
      checkUSDTTargetedArbitrage PROFIT_THRESHOLD s now tradeId execGas buyChain sellChain bp sp gas =
      executeUSDTTargetedArbitrage PROFIT_THRESHOLD s now tradeId buyChain sellChain bp sp a
        (execGas buyChain) (execGas sellChain).
Proof.
  unfold checkUSDTTargetedArbitrage.
  destruct (checkUSDTTargetedDecision _ _ _ _ _); eauto.
Qed.

(** A size that passes the balance cap is at least the absolute minimum. *)
Lemma checkUSDCTargetedDecision_ge_100 (avail bp sp gas a : Q) :
  checkUSDCTargetedDecision PROFIT_THRESHOLD avail bp sp gas = Execute a -> 100 <= a.
Proof.
  unfold checkUSDCTargetedDecision.
  destruct (Qeq_bool _ 0); [discriminate|].
  destruct (Qlt_bool _ _) eqn:E; [discriminate|].
  destruct (Qlt_bool PROFIT_THRESHOLD _); [|discriminate].
  intros H. injection H as <-. apply Qlt_bool_false in E.
  apply Q.min_glb; [|apply Q.le_max_r].
  eapply Qle_trans; [apply Q.le_max_r|exact E].
Qed.

Lemma checkUSDTTargetedDecision_ge_100 (avail bp sp gas a : Q) :
  checkUSDTTargetedDecision PROFIT_THRESHOLD avail bp sp gas = Execute a -> 100 <= a.
Proof.
  unfold checkUSDTTargetedDecision.
  destruct (Qeq_bool _ 0); [discriminate|].
  destruct (Qlt_bool _ _) eqn:E; [discriminate|].
  destruct (Qlt_bool PROFIT_THRESHOLD _); [|discriminate].
  intros H. injection H as <-. apply Qlt_bool_false in E.
  apply Q.min_glb; [|apply Q.le_max_r].
  eapply Qle_trans; [apply Q.le_max_r|exact E].
Qed.

(** The cycle either leaves the ledger alone or hands two projected prices
    [x] (avalanche) and [y] (sonic), ordered by [Math.min]/[Math.max], to one
    of the two checks. *)
Lemma checkArbitrageOpportunities_cases (s : Ledger) (inp : CycleInput) :
  checkArbitrageOpportunities PROFIT_THRESHOLD s inp = s
  \/ exists ap sp x y,
      priceAvalanche inp = Some ap /\ priceSonic inp = Some sp /\
      (x = tokens0PerToken1 ap \/ x = tokens1PerToken0 ap) /\
      (y = tokens0PerToken1 sp \/ y = tokens1PerToken0 sp) /\
      let buyChain := if Qlt_bool x y then "avalanche" else "sonic" in
      let sellChain := if Qlt_bool x y then "sonic" else "avalanche" in
      let totalGasUSD := gasAvalanche inp + gasSonic inp in
      (checkArbitrageOpportunities PROFIT_THRESHOLD s inp =
         checkUSDCTargetedArbitrage PROFIT_THRESHOLD s (cycleNow inp) (cycleTradeId inp)
           (cycleExecGas inp) buyChain sellChain (Qmin x y) (Qmax x y) totalGasUSD
       \/ checkArbitrageOpportunities PROFIT_THRESHOLD s inp =
         checkUSDTTargetedArbitrage PROFIT_THRESHOLD s (cycleNow inp) (cycleTradeId inp)
           (cycleExecGas inp) buyChain sellChain (Qmin x y) (Qmax x y) totalGasUSD).
Proof.
  unfold checkArbitrageOpportunities.
  destruct (priceAvalanche inp) as [ap|]; [|left; reflexivity].
  destruct (priceSonic inp) as [sp|]; [|left; reflexivity].
  right. exists ap, sp.
  destruct (determineTargetToken _ _).
  - eexists _, _. do 2 (split; [reflexivity|]).
    split; [shelve|]. split; [shelve|]. right. reflexivity.
  - eexists _, _. do 2 (split; [reflexivity|]).
    split; [shelve|]. split; [shelve|]. left. reflexivity.
  Unshelve. all: repeat case_match; auto.
Qed.

Ltac simpl_chain_lookups :=
  repeat rewrite getPaperBalance_insert;
  repeat first [ rewrite decide_True by reflexivity
               | rewrite decide_False by discriminate ];
  cbn [usdc usdt].

(** Conservation for one executed USDC-targeted trade between the two
    monitored chains. *)
Lemma executeUSDC_total (s : Ledger) (now : Z) (tradeId buyChain sellChain : string)
  (bp sp a g1 g2 : Q) :
  (buyChain = "avalanche" /\ sellChain = "sonic") \/
  (buyChain = "sonic" /\ sellChain = "avalanche") ->
  let s' := executeUSDCTargetedArbitrage PROFIT_THRESHOLD s now tradeId buyChain sellChain
              bp sp a g1 g2 in
  s' = s \/
  exists t, paperTrades s' = paperTrades s ++ [t] /\
    totalValue (paperBalances s') == totalValue (paperBalances s) + profit t /\
    sourceChain t = buyChain /\ targetChain t = sellChain /\
    forall c, c <> buyChain -> c <> sellChain -> paperBalances s' !! c = paperBalances s !! c.
Proof.
  intros Hchains s'. subst s'.
  pose proof (executeUSDC_cases s now tradeId buyChain sellChain bp sp a g1 g2) as Hx.
  cbv zeta in Hx. destruct Hx as [E|(_ & _ & E)]; [left; exact E|right].
  rewrite E. eexists. split; [reflexivity|]. cbn [paperBalances profit sourceChain targetChain].
  split; [|split; [reflexivity|split; [reflexivity|]]].
  - unfold totalValue, totalUSDC, totalUSDT.
    destruct Hchains as [[-> ->]|[-> ->]]; simpl_chain_lookups;
      rewrite !(usdc_getPaperBalance_now _ _ now 0), !(usdt_getPaperBalance_now _ _ now 0); lra.
  - intros c Hb Hs. rewrite !lookup_insert_ne by congruence. reflexivity.
Qed.

Lemma executeUSDT_total (s : Ledger) (now : Z) (tradeId buyChain sellChain : string)
  (bp sp a g1 g2 : Q) :
  (buyChain = "avalanche" /\ sellChain = "sonic") \/
  (buyChain = "sonic" /\ sellChain = "avalanche") ->
  let s' := executeUSDTTargetedArbitrage PROFIT_THRESHOLD s now tradeId buyChain sellChain
              bp sp a g1 g2 in
  s' = s \/
  exists t, paperTrades s' = paperTrades s ++ [t] /\
    totalValue (paperBalances s') == totalValue (paperBalances s) + profit t /\
    sourceChain t = buyChain /\ targetChain t = sellChain /\
    forall c, c <> buyChain -> c <> sellChain -> paperBalances s' !! c = paperBalances s !! c.
Proof.
  intros Hchains s'. subst s'.
  pose proof (executeUSDT_cases s now tradeId buyChain sellChain bp sp a g1 g2) as Hx.
  cbv zeta in Hx. destruct Hx as [E|(_ & _ & E)]; [left; exact E|right].
  rewrite E. eexists. split; [reflexivity|]. cbn [paperBalances profit sourceChain targetChain].
  split; [|split; [reflexivity|split; [reflexivity|]]].
  - unfold totalValue, totalUSDC, totalUSDT.
    destruct Hchains as [[-> ->]|[-> ->]]; simpl_chain_lookups;
      rewrite !(usdc_getPaperBalance_now _ _ now 0), !(usdt_getPaperBalance_now _ _ now 0); lra.
  - intros c Hb Hs. rewrite !lookup_insert_ne by congruence. reflexivity.
Qed.

(** Every trade a cycle appends is an executed one above the threshold. *)
Lemma checkArbitrageOpportunities_trades (s : Ledger) (inp : CycleInput) :
  exists l, paperTrades (checkArbitrageOpportunities PROFIT_THRESHOLD s inp) = paperTrades s ++ l /\
    Forall (fun t => status t = executed /\ PROFIT_THRESHOLD < netProfit t) l.
Proof.
  destruct (checkArbitrageOpportunities_cases s inp) as [Hc|(ap & sp & x & y & _ & _ & _ & _ & Hc)].
  { rewrite Hc. exists []. rewrite app_nil_r. split; [reflexivity|constructor]. }
  cbv zeta in Hc. destruct Hc as [Hc|Hc]; rewrite Hc.
  - match goal with |- context [checkUSDCTargetedArbitrage _ _ ?n ?i ?eg ?b ?sl ?bp ?spp ?g] =>
      destruct (checkUSDC_cases s n i eg b sl bp spp g) as [E|(a & _ & E)] end;
      rewrite E; [exists []; rewrite app_nil_r; split; [reflexivity|constructor]|].
    match goal with |- context [executeUSDCTargetedArbitrage _ _ ?n ?i ?b ?sl ?bp ?spp ?a ?g1 ?g2] =>
      pose proof (executeUSDC_cases s n i b sl bp spp a g1 g2) as Hx end.
    cbv zeta in Hx. destruct Hx as [E'|(_ & Hp & E')]; rewrite E'.
    + exists []. rewrite app_nil_r. split; [reflexivity|constructor].
    + eexists. split; [reflexivity|]. repeat constructor. exact Hp.
  - match goal with |- context [checkUSDTTargetedArbitrage _ _ ?n ?i ?eg ?b ?sl ?bp ?spp ?g] =>
      destruct (checkUSDT_cases s n i eg b sl bp spp g) as [E|(a & _ & E)] end;
      rewrite E; [exists []; rewrite app_nil_r; split; [reflexivity|constructor]|].
    match goal with |- context [executeUSDTTargetedArbitrage _ _ ?n ?i ?b ?sl ?bp ?spp ?a ?g1 ?g2] =>
      pose proof (executeUSDT_cases s n i b sl bp spp a g1 g2) as Hx end.
    cbv zeta in Hx. destruct Hx as [E'|(_ & Hp & E')]; rewrite E'.
    + exists []. rewrite app_nil_r. split; [reflexivity|constructor].
    + eexists. split; [reflexivity|]. repeat constructor. exact Hp.
Qed.

Lemma checkArbitrageOpportunities_step_total (s : Ledger) (inp : CycleInput) :
  let s' := checkArbitrageOpportunities PROFIT_THRESHOLD s inp in
  s' = s \/
  exists t, paperTrades s' = paperTrades s ++ [t] /\
    totalValue (paperBalances s') == totalValue (paperBalances s) + profit t /\
    forall c, c <> sourceChain t -> c <> targetChain t -> paperBalances s' !! c = paperBalances s !! c.
Proof.
  intros s'. subst s'.
  destruct (checkArbitrageOpportunities_cases s inp) as [Hc|(ap & sp & x & y & _ & _ & _ & _ & Hc)];
    [left; exact Hc|].
  cbv zeta in Hc.
  assert (Hch : forall b : bool,
    ((if b then "avalanche" else "sonic") = "avalanche" /\
     (if b then "sonic" else "avalanche") = "sonic") \/
    ((if b then "avalanche" else "sonic") = "sonic" /\
     (if b then "sonic" else "avalanche") = "avalanche"))
    by (intros []; auto).
  destruct Hc as [Hc|Hc]; rewrite Hc.
  - match goal with |- context [checkUSDCTargetedArbitrage _ _ ?n ?i ?eg ?b ?sl ?bp ?spp ?g] =>
      destruct (checkUSDC_cases s n i eg b sl bp spp g) as [E|(a & _ & E)] end;
      rewrite E; [left; reflexivity|].
    match goal with |- context [executeUSDCTargetedArbitrage _ _ ?n ?i ?b ?sl ?bp ?spp ?a ?g1 ?g2] =>
      destruct (executeUSDC_total s n i b sl bp spp a g1 g2 (Hch _))
        as [E'|(t & Ht & Hv & Hsrc & Htgt & Hothers)] end; [left; exact E'|].
    right. exists t. split; [exact Ht|]. split; [exact Hv|].
    intros c H1 H2. apply Hothers; congruence.
  - match goal with |- context [checkUSDTTargetedArbitrage _ _ ?n ?i ?eg ?b ?sl ?bp ?spp ?g] =>
      destruct (checkUSDT_cases s n i eg b sl bp spp g) as [E|(a & _ & E)] end;
      rewrite E; [left; reflexivity|].
    match goal with |- context [executeUSDTTargetedArbitrage _ _ ?n ?i ?b ?sl ?bp ?spp ?a ?g1 ?g2] =>
      destruct (executeUSDT_total s n i b sl bp spp a g1 g2 (Hch _))
        as [E'|(t & Ht & Hv & Hsrc & Htgt & Hothers)] end; [left; exact E'|].
    right. exists t. split; [exact Ht|]. split; [exact Hv|].
    intros c H1 H2. apply Hothers; congruence.
Qed.

(** What one cycle writes: nothing, or one appended record between two
    distinct chains whose starting asset on the buy chain (at least the
    trade amount) is debited by the amount and whose received asset on the
    sell chain is credited, the other field of each record kept; no other
    chain is touched. *)
Lemma checkArbitrageOpportunities_step_writes (s : Ledger) (inp : CycleInput) :
  let s' := checkArbitrageOpportunities PROFIT_THRESHOLD s inp in
  let now := cycleNow inp in
  s' = s \/
  exists t, paperTrades s' = paperTrades s ++ [t] /\
    sourceChain t <> targetChain t /\
    (let sb := getPaperBalance (paperBalances s) (sourceChain t) now in
     let tb := getPaperBalance (paperBalances s) (targetChain t) now in
     (amount t <= usdc sb /\
      profit t = amount t / sourcePrice t * targetPrice t - amount t /\
      paperBalances s' !! sourceChain t = Some (mkTokenBalance (usdc sb - amount t) (usdt sb) now) /\
      paperBalances s' !! targetChain t =
        Some (mkTokenBalance (usdc tb + amount t / sourcePrice t * targetPrice t) (usdt tb) now)) \/
     (amount t <= usdt sb /\
      profit t = amount t * sourcePrice t / targetPrice t - amount t /\
      paperBalances s' !! sourceChain t = Some (mkTokenBalance (usdc sb) (usdt sb - amount t) now) /\
      paperBalances s' !! targetChain t =
        Some (mkTokenBalance (usdc tb) (usdt tb + amount t * sourcePrice t / targetPrice t) now))) /\
    forall c, c <> sourceChain t -> c <> targetChain t -> paperBalances s' !! c = paperBalances s !! c.
Proof.
  intros s' now. subst s' now.
  destruct (checkArbitrageOpportunities_cases s inp) as [Hc|(ap & sp & x & y & _ & _ & _ & _ & Hc)];
    [left; exact Hc|].
  cbv zeta in Hc. destruct (Qlt_bool x y); destruct Hc as [Hc|Hc]; rewrite Hc.
  all: first
    [ match goal with |- context [checkUSDCTargetedArbitrage _ _ ?n ?i ?eg ?b ?sl ?bp ?spp ?g] =>
        destruct (checkUSDC_cases s n i eg b sl bp spp g) as [E|(a & _ & E)] end;
      rewrite E; [left; reflexivity|];
      match goal with |- context [executeUSDCTargetedArbitrage _ _ ?n ?i ?b ?sl ?bp ?spp ?a ?g1 ?g2] =>
        pose proof (executeUSDC_cases s n i b sl bp spp a g1 g2) as Hx end;
      cbv zeta in Hx; destruct Hx as [E'|(Hle & _ & E')]; [left; exact E'|right];
      rewrite E'; eexists; split; [reflexivity|];
      cbn [paperTrades paperBalances sourceChain targetChain amount sourcePrice targetPrice profit];
      split; [discriminate|]; split;
      [ left; split; [exact Hle|]; split; [reflexivity|]; split;
        [ rewrite lookup_insert_ne by discriminate; apply lookup_insert_eq
        | apply lookup_insert_eq ]
      | intros c H1 H2; rewrite !lookup_insert_ne by congruence; reflexivity ]
    | match goal with |- context [checkUSDTTargetedArbitrage _ _ ?n ?i ?eg ?b ?sl ?bp ?spp ?g] =>
        destruct (checkUSDT_cases s n i eg b sl bp spp g) as [E|(a & _ & E)] end;
      rewrite E; [left; reflexivity|];
      match goal with |- context [executeUSDTTargetedArbitrage _ _ ?n ?i ?b ?sl ?bp ?spp ?a ?g1 ?g2] =>
        pose proof (executeUSDT_cases s n i b sl bp spp a g1 g2) as Hx end;
      cbv zeta in Hx; destruct Hx as [E'|(Hle & _ & E')]; [left; exact E'|right];
      rewrite E'; eexists; split; [reflexivity|];
      cbn [paperTrades paperBalances sourceChain targetChain amount sourcePrice targetPrice profit];
      split; [discriminate|]; split;
      [ right; split; [exact Hle|]; split; [reflexivity|]; split;
        [ rewrite lookup_insert_ne by discriminate; apply lookup_insert_eq
        | apply lookup_insert_eq ]
      | intros c H1 H2; rewrite !lookup_insert_ne by congruence; reflexivity ] ].
Qed.

Lemma calculateMinimumTradeAmount_ratio_le_1 (bp sp gas : Q) (isUSDC : bool) :
  (if isUSDC then sp / bp else bp / sp) <= 1 ->
  calculateMinimumTradeAmount PROFIT_THRESHOLD bp sp gas isUSDC = 0.
Proof.
  intros H. unfold calculateMinimumTradeAmount. cbv zeta.
  apply Qle_bool_iff in H. rewrite H. reflexivity.
Qed.

Lemma div_self_le_1 (p q : Q) : p == q -> q / p <= 1.
Proof.
  intros Heq. destruct (Qeq_dec p 0) as [E|E].
  - unfold Qdiv. rewrite E. change (/ 0) with 0. rewrite Qmult_0_r. discriminate.
  - unfold Qdiv. rewrite <- Heq. rewrite Qmult_inv_r by exact E. apply Qle_refl.
Qed.

Definition nonnegBalance (_ : string) (b : TokenBalance) : Prop := 0 <= usdc b /\ 0 <= usdt b.

Lemma balancesNonneg_spec (m : gmap string TokenBalance) :
  balancesNonneg m = true <-> map_Forall nonnegBalance m.
Proof.
  unfold balancesNonneg. rewrite forallb_forall, map_Forall_to_list, Forall_forall.
  split; intros H [k b] Hin.
  - apply list_elem_of_In in Hin. specialize (H (k, b) Hin). cbn in *.
    apply andb_prop in H as [H1 H2]. apply Qle_bool_iff in H1, H2. split; assumption.
  - apply list_elem_of_In in Hin. specialize (H (k, b) Hin). cbn in *.
    destruct H as [H1 H2]. apply Qle_bool_iff in H1, H2. rewrite H1, H2. reflexivity.
Qed.

Lemma getPaperBalance_nonneg (m : gmap string TokenBalance) (c : string) (n : Z) :
  map_Forall nonnegBalance m -> nonnegBalance c (getPaperBalance m c n).
Proof.
  intros H. unfold getPaperBalance. destruct (m !! c) as [b|] eqn:E.
  - exact (H c b E).
  - split; apply Qle_refl.
Qed.

Lemma executeUSDC_nonneg (s : Ledger) (now : Z) (tradeId buyChain sellChain : string)
  (bp sp a g1 g2 : Q) :
  0 <= bp -> 0 <= sp -> 0 <= a -> map_Forall nonnegBalance (paperBalances s) ->
  map_Forall nonnegBalance (paperBalances
    (executeUSDCTargetedArbitrage PROFIT_THRESHOLD s now tradeId buyChain sellChain bp sp a g1 g2)).
Proof.
  intros Hbp Hsp Ha Hm.
  pose proof (executeUSDC_cases s now tradeId buyChain sellChain bp sp a g1 g2)
    as Hx. cbv zeta in Hx.
  destruct Hx as [E|(Hle & _ & E)]; rewrite E; [exact Hm|]. cbn [paperBalances].
  destruct (getPaperBalance_nonneg _ buyChain now Hm) as [Hs1 Hs2].
  destruct (getPaperBalance_nonneg _ sellChain now Hm) as [Ht1 Ht2].
  assert (Hr : 0 <= a / bp * sp)
    by (apply Qmult_le_0_compat; [apply Qmult_le_0_compat; [|apply Qinv_le_0_compat]|]; assumption).
  apply map_Forall_insert_2; [split; cbn [usdc usdt]; lra|].
  apply map_Forall_insert_2; [split; cbn [usdc usdt]; lra|exact Hm].
Qed.

Lemma executeUSDT_nonneg (s : Ledger) (now : Z) (tradeId buyChain sellChain : string)
  (bp sp a g1 g2 : Q) :
  0 <= bp -> 0 <= sp -> 0 <= a -> map_Forall nonnegBalance (paperBalances s) ->
  map_Forall nonnegBalance (paperBalances
    (executeUSDTTargetedArbitrage PROFIT_THRESHOLD s now tradeId buyChain sellChain bp sp a g1 g2)).
Proof.
  intros Hbp Hsp Ha Hm.
  pose proof (executeUSDT_cases s now tradeId buyChain sellChain bp sp a g1 g2)
    as Hx. cbv zeta in Hx.
  destruct Hx as [E|(Hle & _ & E)]; rewrite E; [exact Hm|]. cbn [paperBalances].
  destruct (getPaperBalance_nonneg _ buyChain now Hm) as [Hs1 Hs2].
  destruct (getPaperBalance_nonneg _ sellChain now Hm) as [Ht1 Ht2].
  assert (Hr : 0 <= a * bp / sp)
    by (apply Qmult_le_0_compat; [apply Qmult_le_0_compat|apply Qinv_le_0_compat]; assumption).
  apply map_Forall_insert_2; [split; cbn [usdc usdt]; lra|].
  apply map_Forall_insert_2; [split; cbn [usdc usdt]; lra|exact Hm].
Qed.

Lemma checkArbitrageOpportunities_nonneg (s : Ledger) (inp : CycleInput) :
  cycleInputNonneg inp = true -> map_Forall nonnegBalance (paperBalances s) ->
  map_Forall nonnegBalance (paperBalances (checkArbitrageOpportunities PROFIT_THRESHOLD s inp)).
Proof.
  intros Hinp Hm.
  destruct (checkArbitrageOpportunities_cases s inp)
    as [Hc|(ap & sp & x & y & Hap & Hsp & Hx & Hy & Hc)]; [rewrite Hc; exact Hm|].
  unfold cycleInputNonneg in Hinp. rewrite Hap, Hsp in Hinp. cbn in Hinp.
  apply andb_prop in Hinp as [Ha Hs]. apply andb_prop in Ha as [Ha0 Ha1].
  apply andb_prop in Hs as [Hs0 Hs1]. apply Qle_bool_iff in Ha0, Ha1, Hs0, Hs1.
  assert (Hx0 : 0 <= x) by (destruct Hx as [->| ->]; assumption).
  assert (Hy0 : 0 <= y) by (destruct Hy as [->| ->]; assumption).
  assert (Hmin : 0 <= Qmin x y) by (apply Q.min_glb; assumption).
  assert (Hmax : 0 <= Qmax x y) by (eapply Qle_trans; [exact Hx0|apply Q.le_max_l]).
  cbv zeta in Hc. destruct Hc as [Hc|Hc]; rewrite Hc.
  - match goal with |- context [checkUSDCTargetedArbitrage _ _ ?n ?i ?eg ?b ?sl ?bp ?spp ?g] =>
      destruct (checkUSDC_cases s n i eg b sl bp spp g) as [E|(a & Hd & E)] end;
      rewrite E; [exact Hm|].
    apply checkUSDCTargetedDecision_ge_100 in Hd.
    apply executeUSDC_nonneg; try assumption. eapply Qle_trans; [|exact Hd]. discriminate.
  - match goal with |- context [checkUSDTTargetedArbitrage _ _ ?n ?i ?eg ?b ?sl ?bp ?spp ?g] =>
      destruct (checkUSDT_cases s n i eg b sl bp spp g) as [E|(a & Hd & E)] end;
      rewrite E; [exact Hm|].
    apply checkUSDTTargetedDecision_ge_100 in Hd.
    apply executeUSDT_nonneg; try assumption. eapply Qle_trans; [|exact Hd]. discriminate.
Qed.

End EngineFacts.

(** ** Claims *)

Section Claims.

Variable PROFIT_THRESHOLD : Q.

(** C3. Ledger conservation: a cycle either changes nothing or appends one
    trade record between two distinct chains. Then the buy chain's starting
    asset is debited by the trade amount, the sell chain is credited with
    the amount received, the other field of both records is kept, no other
    chain is touched, and the sum of USDC and USDT over both chains grows by
    exactly the record's gross profit (received minus amount). Over any
    sequence of cycles the sum grows by exactly the summed gross profits of
    the appended records. *)
Theorem ledger_total_changes_by_grossProfit (s : Ledger) :
  (forall inp : CycleInput,
     let s' := checkArbitrageOpportunities PROFIT_THRESHOLD s inp in
     let now := cycleNow inp in
     s' = s \/
     exists t, paperTrades s' = paperTrades s ++ [t] /\
       totalValue (paperBalances s') == totalValue (paperBalances s) + profit t /\
       sourceChain t <> targetChain t /\
       (let sb := getPaperBalance (paperBalances s) (sourceChain t) now in
        let tb := getPaperBalance (paperBalances s) (targetChain t) now in
        (profit t = amount t / sourcePrice t * targetPrice t - amount t /\
         paperBalances s' !! sourceChain t =
           Some (mkTokenBalance (usdc sb - amount t) (usdt sb) now) /\
         paperBalances s' !! targetChain t =
           Some (mkTokenBalance (usdc tb + amount t / sourcePrice t * targetPrice t) (usdt tb) now)) \/
        (profit t = amount t * sourcePrice t / targetPrice t - amount t /\
         paperBalances s' !! sourceChain t =
           Some (mkTokenBalance (usdc sb) (usdt sb - amount t) now) /\
         paperBalances s' !! targetChain t =
           Some (mkTokenBalance (usdc tb) (usdt tb + amount t * sourcePrice t / targetPrice t) now))) /\
       forall c, c <> sourceChain t -> c <> targetChain t ->
                 paperBalances s' !! c = paperBalances s !! c) /\
  (forall inps : list CycleInput,
     exists l, paperTrades (runCycles PROFIT_THRESHOLD s inps) = paperTrades s ++ l /\
       totalValue (paperBalances (runCycles PROFIT_THRESHOLD s inps)) ==
       totalValue (paperBalances s) + sumProfit l).
Proof.
  split.
  - intros inp. cbv zeta.
    pose proof (checkArbitrageOpportunities_step_total PROFIT_THRESHOLD s inp) as HT.
    pose proof (checkArbitrageOpportunities_step_writes PROFIT_THRESHOLD s inp) as HW.
    cbv zeta in HT, HW.
    destruct HT as [E|(t & Ht & Hv & Ho)]; [left; exact E|].
    destruct HW as [E|(t' & Ht' & Hd & Hw & _)]; [left; exact E|].
    rewrite Ht in Ht'. apply app_inj_tail in Ht' as [_ <-].
    right. exists t. split; [exact Ht|]. split; [exact Hv|]. split; [exact Hd|].
    split; [|exact Ho].
    destruct Hw as [(_ & Hp & H1 & H2)|(_ & Hp & H1 & H2)]; [left|right]; auto.
  - intros inps. revert s. induction inps as [|inp rest IH]; intros s.
    + exists []. simpl. rewrite app_nil_r. split; [reflexivity|]. unfold sumProfit; simpl. lra.
    + simpl. destruct (IH (checkArbitrageOpportunities PROFIT_THRESHOLD s inp)) as (l & Hl & Hv).
      pose proof (checkArbitrageOpportunities_step_total PROFIT_THRESHOLD s inp) as Hs.
      cbv zeta in Hs. destruct Hs as [E|(t & Ht & Htv & _)].
      * rewrite E in Hl, Hv |- *. exists l. split; assumption.
      * exists (t :: l). rewrite Hl, Ht, <- app_assoc. split; [reflexivity|].
        rewrite Hv, Htv. unfold sumProfit; simpl. lra.
Qed.

(** C10. Over any sequence of cycles the trade history only grows at its end,
    and every appended record has status [executed] and a net profit strictly
    above [PROFIT_THRESHOLD]; [failed] and [pending] are never produced. *)
Theorem trade_history_append_only_executed (s : Ledger) (inps : list CycleInput) :
  exists l, paperTrades (runCycles PROFIT_THRESHOLD s inps) = paperTrades s ++ l /\
    Forall (fun t => status t = executed /\ PROFIT_THRESHOLD < netProfit t) l.
Proof.
  revert s. induction inps as [|inp rest IH]; intros s; simpl.
  - exists []. rewrite app_nil_r. split; [reflexivity|constructor].
  - destruct (checkArbitrageOpportunities_trades PROFIT_THRESHOLD s inp) as (l1 & H1 & F1).
    destruct (IH (checkArbitrageOpportunities PROFIT_THRESHOLD s inp)) as (l2 & H2 & F2).
    exists (l1 ++ l2). rewrite H2, H1, app_assoc. split; [reflexivity|].
    apply Forall_app; split; assumption.
Qed.

(** C4. Committing a trade is atomic. When the commit-time re-check finds
    less of the starting asset on the buy chain than the trade amount, the
    ledger (balances and history) is returned unchanged; otherwise either
    nothing changes, or exactly one record is appended and both the buy-chain
    debit and the sell-chain credit are written, no other chain being
    touched. Stated for both directions, between two distinct chains. *)
Theorem applyTrade_atomic (s : Ledger) (now : Z) (tradeId buyChain sellChain : string)
  (bp sp a g1 g2 : Q) (Hdistinct : buyChain <> sellChain) :
  let sb := getPaperBalance (paperBalances s) buyChain now in
  let tb := getPaperBalance (paperBalances s) sellChain now in
  (usdc sb < a ->
     executeUSDCTargetedArbitrage PROFIT_THRESHOLD s now tradeId buyChain sellChain
       bp sp a g1 g2 = s) /\
  (let s' := executeUSDCTargetedArbitrage PROFIT_THRESHOLD s now tradeId buyChain sellChain
               bp sp a g1 g2 in
   s' = s \/
   exists t, paperTrades s' = paperTrades s ++ [t] /\
     paperBalances s' !! buyChain = Some (mkTokenBalance (usdc sb - a) (usdt sb) now) /\
     paperBalances s' !! sellChain = Some (mkTokenBalance (usdc tb + a / bp * sp) (usdt tb) now) /\
     forall c, c <> buyChain -> c <> sellChain -> paperBalances s' !! c = paperBalances s !! c) /\
  (usdt sb < a ->
     executeUSDTTargetedArbitrage PROFIT_THRESHOLD s now tradeId buyChain sellChain
       bp sp a g1 g2 = s) /\
  (let s' := executeUSDTTargetedArbitrage PROFIT_THRESHOLD s now tradeId buyChain sellChain
               bp sp a g1 g2 in
   s' = s \/
   exists t, paperTrades s' = paperTrades s ++ [t] /\
     paperBalances s' !! buyChain = Some (mkTokenBalance (usdc sb) (usdt sb - a) now) /\
     paperBalances s' !! sellChain = Some (mkTokenBalance (usdc tb) (usdt tb + a * bp / sp) now) /\
     forall c, c <> buyChain -> c <> sellChain -> paperBalances s' !! c = paperBalances s !! c).
Proof.
  intros sb tb. subst sb tb.
  pose proof (executeUSDC_cases PROFIT_THRESHOLD s now tradeId buyChain sellChain bp sp a g1 g2)
    as HC.
  pose proof (executeUSDT_cases PROFIT_THRESHOLD s now tradeId buyChain sellChain bp sp a g1 g2)
    as HT.
  cbv zeta in HC, HT |- *.
  split; [|split; [|split]].
  - intros Hlt. destruct HC as [E|(Hle & _ & _)]; [exact E|].
    exfalso. apply (Qlt_not_le _ _ Hlt Hle).
  - destruct HC as [E|(_ & _ & E)]; [left; exact E|right].
    rewrite E. eexists. cbn [paperBalances paperTrades].
    split; [reflexivity|]. split; [|split].
    + rewrite lookup_insert_ne by congruence. apply lookup_insert_eq.
    + apply lookup_insert_eq.
    + intros c H1 H2. rewrite !lookup_insert_ne by congruence. reflexivity.
  - intros Hlt. destruct HT as [E|(Hle & _ & _)]; [exact E|].
    exfalso. apply (Qlt_not_le _ _ Hlt Hle).
  - destruct HT as [E|(_ & _ & E)]; [left; exact E|right].
    rewrite E. eexists. cbn [paperBalances paperTrades].
    split; [reflexivity|]. split; [|split].
    + rewrite lookup_insert_ne by congruence. apply lookup_insert_eq.
    + apply lookup_insert_eq.
    + intros c H1 H2. rewrite !lookup_insert_ne by congruence. reflexivity.
Qed.

(** C5. Trade sizing of [checkUSDCTargetedArbitrage]: for a positive
    computed minimum, when [maxAmount = floor(0.5 * available USDC on the
    buy chain)] is below [max(minAmount, 100)] the outcome is the
    insufficient-balance report and the ledger is unchanged, and whenever a
    trade is attempted its size is [min(maxAmount, max(minAmount, 100))]. *)
Theorem trade_size_min_max_rule (s : Ledger) (now : Z) (tradeId : string)
  (execGas : string -> Q) (buyChain sellChain : string) (bp sp gas : Q) :
  let avail := usdc (getPaperBalance (paperBalances s) buyChain now) in
  let minAmount := calculateMinimumTradeAmount PROFIT_THRESHOLD bp sp gas true in
  let maxAmount := inject_Z (Qfloor (avail * (1 # 2))) in
  0 < minAmount ->
  (maxAmount < Qmax minAmount 100 ->
     checkUSDCTargetedDecision PROFIT_THRESHOLD avail bp sp gas = InsufficientBalance /\
     checkUSDCTargetedArbitrage PROFIT_THRESHOLD s now tradeId execGas buyChain sellChain
       bp sp gas = s) /\
  (forall a, checkUSDCTargetedDecision PROFIT_THRESHOLD avail bp sp gas = Execute a ->
     a = Qmin maxAmount (Qmax minAmount 100) /\
     checkUSDCTargetedArbitrage PROFIT_THRESHOLD s now tradeId execGas buyChain sellChain
       bp sp gas =
     executeUSDCTargetedArbitrage PROFIT_THRESHOLD s now tradeId buyChain sellChain bp sp a
       (execGas buyChain) (execGas sellChain)).
Proof.
  intros avail minAmount maxAmount Hpos. subst avail minAmount maxAmount.
  unfold checkUSDCTargetedArbitrage, checkUSDCTargetedDecision. cbv zeta.
  set (minA := calculateMinimumTradeAmount PROFIT_THRESHOLD bp sp gas true) in *.
  set (maxA := inject_Z (Qfloor (usdc (getPaperBalance (paperBalances s) buyChain now) * (1 # 2)))).
  assert (Hne : Qeq_bool minA 0 = false).
  { destruct (Qeq_bool minA 0) eqn:E; [|reflexivity].
    apply Qeq_bool_iff in E. exfalso. rewrite E in Hpos. discriminate Hpos. }
  rewrite Hne. split.
  - intros Hlt. apply Qlt_bool_true in Hlt. rewrite Hlt. split; reflexivity.
  - intros a0 Ha. destruct (Qlt_bool maxA (Qmax minA 100)); [discriminate|].
    destruct (Qlt_bool PROFIT_THRESHOLD _); [|discriminate].
    injection Ha as <-. split; reflexivity.
Qed.

(** C6. No opportunity without a spread: when the price ratio of a direction
    is at most 1 (in particular when the two projected prices are equal) the
    check reports "ratio <= 1", executes nothing, appends no record and leaves
    every balance unchanged. *)
Theorem no_opportunity_when_ratio_le_one (s : Ledger) (now : Z) (tradeId : string)
  (execGas : string -> Q) (buyChain sellChain : string) (bp sp gas : Q) :
  (sp / bp <= 1 ->
     checkUSDCTargetedDecision PROFIT_THRESHOLD
       (usdc (getPaperBalance (paperBalances s) buyChain now)) bp sp gas = RatioNotProfitable /\
     checkUSDCTargetedArbitrage PROFIT_THRESHOLD s now tradeId execGas buyChain sellChain
       bp sp gas = s) /\
  (bp / sp <= 1 ->
     checkUSDTTargetedDecision PROFIT_THRESHOLD
       (usdt (getPaperBalance (paperBalances s) buyChain now)) bp sp gas = RatioNotProfitable /\
     checkUSDTTargetedArbitrage PROFIT_THRESHOLD s now tradeId execGas buyChain sellChain
       bp sp gas = s) /\
  (bp == sp ->
     checkUSDCTargetedArbitrage PROFIT_THRESHOLD s now tradeId execGas buyChain sellChain
       bp sp gas = s /\
     checkUSDTTargetedArbitrage PROFIT_THRESHOLD s now tradeId execGas buyChain sellChain
       bp sp gas = s).
Proof.
  assert (HC : sp / bp <= 1 ->
     checkUSDCTargetedDecision PROFIT_THRESHOLD
       (usdc (getPaperBalance (paperBalances s) buyChain now)) bp sp gas = RatioNotProfitable /\
     checkUSDCTargetedArbitrage PROFIT_THRESHOLD s now tradeId execGas buyChain sellChain
       bp sp gas = s).
  { intros H. unfold checkUSDCTargetedArbitrage, checkUSDCTargetedDecision. cbv zeta.
    rewrite (calculateMinimumTradeAmount_ratio_le_1 PROFIT_THRESHOLD bp sp gas true H).
    split; reflexivity. }
  assert (HT : bp / sp <= 1 ->
     checkUSDTTargetedDecision PROFIT_THRESHOLD
       (usdt (getPaperBalance (paperBalances s) buyChain now)) bp sp gas = RatioNotProfitable /\
     checkUSDTTargetedArbitrage PROFIT_THRESHOLD s now tradeId execGas buyChain sellChain
       bp sp gas = s).
  { intros H. unfold checkUSDTTargetedArbitrage, checkUSDTTargetedDecision. cbv zeta.
    rewrite (calculateMinimumTradeAmount_ratio_le_1 PROFIT_THRESHOLD bp sp gas false H).
    split; reflexivity. }
  split; [exact HC|]. split; [exact HT|].
  intros Heq. split.
  - apply HC. apply div_self_le_1. exact Heq.
  - apply HT. apply div_self_le_1. symmetry. exact Heq.
Qed.

(** C7. [determineTargetToken] returns the token whose total over both
    chains is smaller, USDC on a tie, and its result depends only on the
    four balance fields. *)
Theorem determineTargetToken_scarcer (m : gmap string TokenBalance) (now : Z) :
  (totalUSDC m < totalUSDT m -> determineTargetToken m now = USDC) /\
  (totalUSDT m < totalUSDC m -> determineTargetToken m now = USDT) /\
  (totalUSDC m == totalUSDT m -> determineTargetToken m now = USDC) /\
  (forall (m' : gmap string TokenBalance) (now' : Z),
     usdc (getPaperBalance m' "avalanche" 0) == usdc (getPaperBalance m "avalanche" 0) ->
     usdt (getPaperBalance m' "avalanche" 0) == usdt (getPaperBalance m "avalanche" 0) ->
     usdc (getPaperBalance m' "sonic" 0) == usdc (getPaperBalance m "sonic" 0) ->
     usdt (getPaperBalance m' "sonic" 0) == usdt (getPaperBalance m "sonic" 0) ->
     determineTargetToken m' now' = determineTargetToken m now).
Proof.
  assert (Hdet : forall (m0 : gmap string TokenBalance) (n : Z),
    determineTargetToken m0 n = if Qle_bool (totalUSDC m0) (totalUSDT m0) then USDC else USDT).
  { intros m0 n. unfold determineTargetToken, totalUSDC, totalUSDT.
    rewrite !(usdc_getPaperBalance_now _ _ n 0), !(usdt_getPaperBalance_now _ _ n 0).
    reflexivity. }
  split; [|split; [|split]].
  - intros H. rewrite Hdet. replace (Qle_bool _ _) with true; [reflexivity|].
    symmetry. apply Qle_bool_iff. apply Qlt_le_weak. exact H.
  - intros H. rewrite Hdet. destruct (Qle_bool _ _) eqn:E; [|reflexivity].
    apply Qle_bool_iff in E. exfalso. apply (Qlt_not_le _ _ H E).
  - intros H. rewrite Hdet. replace (Qle_bool _ _) with true; [reflexivity|].
    symmetry. apply Qle_bool_iff. rewrite H. apply Qle_refl.
  - intros m' now' H1 H2 H3 H4. rewrite !Hdet.
    assert (Ec : totalUSDC m' == totalUSDC m) by (unfold totalUSDC; rewrite H1, H3; reflexivity).
    assert (Et : totalUSDT m' == totalUSDT m) by (unfold totalUSDT; rewrite H2, H4; reflexivity).
    destruct (Qle_bool (totalUSDC m) (totalUSDT m)) eqn:E1;
      destruct (Qle_bool (totalUSDC m') (totalUSDT m')) eqn:E2; try reflexivity; exfalso.
    + apply Qle_bool_iff in E1. rewrite <- Ec, <- Et in E1.
      apply Qle_bool_iff in E1. congruence.
    + apply Qle_bool_iff in E2. rewrite Ec, Et in E2.
      apply Qle_bool_iff in E2. congruence.
Qed.

(** C9. Non-negativity: starting from balances whose fields are all
    non-negative (the seed allocation is one), every sequence of cycles on
    non-negative pool prices keeps every per-chain USDC and USDT balance
    non-negative. This holds because a trade is rejected before any write:
    an execution whose amount exceeds the buy chain's balance of the
    starting asset returns the ledger unchanged; and because no balance is
    clamped: when a cycle trades, the amount is at most that balance and
    the buy chain's balance is written as exactly balance minus amount. *)
Theorem balances_stay_nonneg (s : Ledger) (inps : list CycleInput) :
  (balancesNonneg (paperBalances s) = true ->
   forallb cycleInputNonneg inps = true ->
   balancesNonneg (paperBalances (runCycles PROFIT_THRESHOLD s inps)) = true) /\
  (forall (now : Z) (tradeId buyChain sellChain : string) (bp sp a g1 g2 : Q),
     let sb := getPaperBalance (paperBalances s) buyChain now in
     (usdc sb < a ->
        executeUSDCTargetedArbitrage PROFIT_THRESHOLD s now tradeId buyChain sellChain
          bp sp a g1 g2 = s) /\
     (usdt sb < a ->
        executeUSDTTargetedArbitrage PROFIT_THRESHOLD s now tradeId buyChain sellChain
          bp sp a g1 g2 = s)) /\
  (forall inp : CycleInput,
     let s' := checkArbitrageOpportunities PROFIT_THRESHOLD s inp in
     let now := cycleNow inp in
     s' = s \/
     exists t, paperTrades s' = paperTrades s ++ [t] /\
       let sb := getPaperBalance (paperBalances s) (sourceChain t) now in
       (amount t <= usdc sb /\
        paperBalances s' !! sourceChain t =
          Some (mkTokenBalance (usdc sb - amount t) (usdt sb) now)) \/
       (amount t <= usdt sb /\
        paperBalances s' !! sourceChain t =
          Some (mkTokenBalance (usdc sb) (usdt sb - amount t) now))).
Proof.
  split; [|split].
  - rewrite !balancesNonneg_spec. revert s.
    induction inps as [|inp rest IH]; intros s Hs Hinps; [exact Hs|].
    cbn in Hinps |- *. apply andb_prop in Hinps as [H1 H2].
    apply IH; [|exact H2]. apply checkArbitrageOpportunities_nonneg; assumption.
  - intros now tradeId buyChain sellChain bp sp a g1 g2. cbv zeta.
    pose proof (executeUSDC_cases PROFIT_THRESHOLD s now tradeId buyChain sellChain bp sp a g1 g2)
      as HC.
    pose proof (executeUSDT_cases PROFIT_THRESHOLD s now tradeId buyChain sellChain bp sp a g1 g2)
      as HT.
    cbv zeta in HC, HT. split.
    + intros Hlt. destruct HC as [E|(Hle & _ & _)]; [exact E|].
      exfalso. apply (Qlt_not_le _ _ Hlt Hle).
    + intros Hlt. destruct HT as [E|(Hle & _ & _)]; [exact E|].
      exfalso. apply (Qlt_not_le _ _ Hlt Hle).
  - intros inp. cbv zeta.
    pose proof (checkArbitrageOpportunities_step_writes PROFIT_THRESHOLD s inp) as HW.
    cbv zeta in HW. destruct HW as [E|(t & Ht & _ & Hw & _)]; [left; exact E|].
    right. exists t. split; [exact Ht|].
    destruct Hw as [(Ha & _ & H1 & _)|(Ha & _ & H1 & _)]; [left|right]; auto.
Qed.

End Claims.

(** ** Evaluations at concrete inputs *)

(** C1. In the specification's scenario (buy at 0.9998, sell at 1.0002,
    threshold 0.5, total gas $0.10) [calculateMinimumTradeAmount] returns
    1749.6525, not the 1499.7025 of the specified formula: its
    [requiredNetProfit] already contains [totalGasUSD] and the division adds
    [totalGasUSD] a second time. *)
Theorem calculateMinimumTradeAmount_counts_gas_twice :
  calculateMinimumTradeAmount (1 # 2) (9998 # 10000) (10002 # 10000) (1 # 10) true
    == 1749652500 # 1000000 /\
  minAmountAsSpecified (1 # 2) (9998 # 10000) (10002 # 10000) (1 # 10) == 1499702500 # 1000000 /\
  ~ calculateMinimumTradeAmount (1 # 2) (9998 # 10000) (10002 # 10000) (1 # 10) true
    == minAmountAsSpecified (1 # 2) (9998 # 10000) (10002 # 10000) (1 # 10).
Proof.
  split; [vm_compute; reflexivity|]. split; [vm_compute; reflexivity|].
  vm_compute. discriminate.
Qed.

(** C2. With more USDC than USDT system-wide the selector picks USDT, yet the
    cycle runs the USDC round trip: the executed trade raises the USDC total
    and leaves the USDT total unchanged. From the seed (tie, target USDC) the
    USDT-targeted check gets [Math.min] as buy and [Math.max] as sell price,
    so its ratio is at most 1 and nothing executes. *)
Theorem target_token_not_accumulated :
  determineTargetToken (paperBalances usdcHeavyLedger) 0 = USDT /\
  length (paperTrades (checkArbitrageOpportunities (1 # 2) usdcHeavyLedger spreadInput)) = 1%nat /\
  totalUSDT (paperBalances (checkArbitrageOpportunities (1 # 2) usdcHeavyLedger spreadInput))
    == totalUSDT (paperBalances usdcHeavyLedger) /\
  totalUSDC (paperBalances usdcHeavyLedger)
    < totalUSDC (paperBalances (checkArbitrageOpportunities (1 # 2) usdcHeavyLedger spreadInput)) /\
  determineTargetToken (paperBalances (seedLedger 0)) 0 = USDC /\
  checkArbitrageOpportunities (1 # 2) (seedLedger 0) spreadInput = seedLedger 0.
Proof.
  split; [vm_compute; reflexivity|]. split; [vm_compute; reflexivity|].
  split; [vm_compute; reflexivity|]. split; [vm_compute; reflexivity|].
  split; vm_compute; reflexivity.
Qed.

(** C8. When the Chainlink read fails on sonic the configured fallback for S
    is [.0], which the truthiness test treats as missing: [getUSDPrice]
    throws and [getGasCostInUSD] reports $0 for a non-zero gas amount, while
    avalanche falls back to $25 per AVAX. *)
Theorem sonic_fallback_price_is_zero :
  fallbackPrices "sonic" "S" = Some 0 /\
  fst (getUSDPrice ∅ 1000 None "sonic" "S") = Throw "No price available for S on sonic" /\
  fst (getGasCostInUSD sampleGasCosts ∅ 1000 None "sonic") = 0 /\
  fst (getUSDPrice ∅ 1000 None "avalanche" "AVAX") = Ok 25 /\
  fst (getGasCostInUSD sampleGasCosts ∅ 1000 None "avalanche") == 75 # 10000.
Proof.
  split; [reflexivity|]. split; [vm_compute; reflexivity|].
  split; [vm_compute; reflexivity|]. split; [vm_compute; reflexivity|].
  vm_compute. reflexivity.
Qed.

(** ** Witnesses *)

Lemma applyTrade_atomic_witness :
  executeUSDCTargetedArbitrage (1 # 2) usdcHeavyLedger 7 "trade_7_a" "avalanche" "sonic"
    (99 # 100) (101 # 100) 100000 (1 # 20) (1 # 20) = usdcHeavyLedger.
Proof.
  refine (proj1 (applyTrade_atomic (1 # 2) usdcHeavyLedger 7 "trade_7_a" "avalanche" "sonic"
                   (99 # 100) (101 # 100) 100000 (1 # 20) (1 # 20) _) _).
  all: first [discriminate | vm_compute; reflexivity].
Defined.

Lemma trade_size_min_max_rule_witness :
  checkUSDCTargetedArbitrage (1 # 2) (seedLedger 0) 7 "trade_7_a" (fun _ => 1 # 20)
    "avalanche" "sonic" (99 # 100) (101 # 100) 1000 = seedLedger 0.
Proof.
  refine (proj2 (proj1 (trade_size_min_max_rule (1 # 2) (seedLedger 0) 7 "trade_7_a"
                          (fun _ => 1 # 20) "avalanche" "sonic" (99 # 100) (101 # 100) 1000 _) _)).
  all: vm_compute; reflexivity.
Defined.

Lemma no_opportunity_when_ratio_le_one_witness :
  checkUSDCTargetedArbitrage (1 # 2) (seedLedger 0) 7 "trade_7_a" (fun _ => 1 # 20)
    "sonic" "avalanche" 1 1 (1 # 10) = seedLedger 0.
Proof.
  refine (proj1 (proj2 (proj2 (no_opportunity_when_ratio_le_one (1 # 2) (seedLedger 0) 7
                                 "trade_7_a" (fun _ => 1 # 20) "sonic" "avalanche" 1 1 (1 # 10)))
                 _)).
  reflexivity.
Defined.

Lemma determineTargetToken_scarcer_witness :
  determineTargetToken (paperBalances usdcHeavyLedger) 0 = USDT.
Proof.
  refine (proj1 (proj2 (determineTargetToken_scarcer (paperBalances usdcHeavyLedger) 0)) _).
  vm_compute. reflexivity.
Defined.

Lemma balances_stay_nonneg_witness :
  balancesNonneg (paperBalances (runCycles (1 # 2) usdcHeavyLedger [spreadInput])) = true.
Proof.
  apply (proj1 (balances_stay_nonneg (1 # 2) usdcHeavyLedger [spreadInput])); vm_compute; reflexivity.
Defined.

(** ** Retries and gas data *)

Lemma withRetryLoop_S {A : Type} (fn : nat -> Result A) (n i f : nat) :
  withRetryLoop fn n i (S f) =
  match fn i with
  | Ok a => Ok a
  | Throw e => if Nat.eqb i n then Throw e else withRetryLoop fn n (S i) f
  end.
Proof. reflexivity. Qed.

(** The loop started at attempt [i] with [n - i + 1] iterations left returns
    the first success among attempts [i..n], or the error of attempt [n]. *)
Lemma withRetryLoop_spec {A : Type} (fn : nat -> Result A) (n d : nat) :
  forall i, (i + d)%nat = n ->
  (forall a, withRetryLoop fn n i (S d) = Ok a <->
     exists k, (i <= k <= n)%nat /\ fn k = Ok a /\
       forall j, (i <= j < k)%nat -> exists e, fn j = Throw e) /\
  (forall e, withRetryLoop fn n i (S d) = Throw e ->
     fn n = Throw e /\ forall j, (i <= j <= n)%nat -> exists e', fn j = Throw e').
Proof.
  induction d as [|d IH]; intros i Hi.
  - assert (i = n) by lia. subst i. rewrite withRetryLoop_S, Nat.eqb_refl.
    destruct (fn n) as [b|e0] eqn:Ef.
    + split.
      * intros a. split.
        -- intros H. injection H as <-. exists n. split; [lia|]. split; [first [exact Ef | reflexivity]|].
           intros j Hj. lia.
        -- intros (k & Hk & Hfk & _). assert (k = n) by lia. subst k. congruence.
      * intros e H. discriminate.
    + split.
      * intros a. split; [discriminate|].
        intros (k & Hk & Hfk & _). assert (k = n) by lia. subst k. congruence.
      * intros e H. injection H as <-. split; [first [exact Ef | reflexivity]|].
        intros j Hj. assert (j = n) by lia. subst j. eauto.
  - rewrite withRetryLoop_S.
    destruct (IH (S i) ltac:(lia)) as [IHok IHth].
    assert (Hneq : Nat.eqb i n = false) by (apply Nat.eqb_neq; lia).
    destruct (fn i) as [b|e0] eqn:Ef.
    + split.
      * intros a. split.
        -- intros H. injection H as <-. exists i. split; [lia|]. split; [first [exact Ef | reflexivity]|].
           intros j Hj. lia.
        -- intros (k & Hk & Hfk & Hbefore). destruct (Nat.eq_dec k i) as [->|Hki].
           ++ congruence.
           ++ destruct (Hbefore i ltac:(lia)) as [e He]. congruence.
      * intros e H. discriminate.
    + rewrite Hneq. split.
      * intros a. rewrite IHok. split.
        -- intros (k & Hk & Hfk & Hbefore). exists k. split; [lia|]. split; [exact Hfk|].
           intros j Hj. destruct (Nat.eq_dec j i) as [->|Hji]; [eauto|]. apply Hbefore. lia.
        -- intros (k & Hk & Hfk & Hbefore). destruct (Nat.eq_dec k i) as [->|Hki]; [congruence|].
           exists k. split; [lia|]. split; [exact Hfk|]. intros j Hj. apply Hbefore. lia.
      * intros e H. destruct (IHth e H) as [Hn Hall]. split; [exact Hn|].
        intros j Hj. destruct (Nat.eq_dec j i) as [->|Hji]; [eauto|]. apply Hall. lia.
Qed.

Lemma withRetry_Ok {A : Type} (fn : nat -> Result A) (n i : nat) (a : A) :
  (i <= n)%nat -> fn i = Ok a -> (forall j, (j < i)%nat -> exists e, fn j = Throw e) ->
  withRetry fn n = Ok a.
Proof.
  intros Hi Hf Hb. unfold withRetry.
  apply (proj1 (withRetryLoop_spec fn n n 0 ltac:(lia)) a).
  exists i. split; [lia|]. split; [exact Hf|]. intros j Hj. apply Hb. lia.
Qed.

Lemma withRetry_all_fail {A : Type} (fn : nat -> Result A) (n : nat) :
  (forall j, (j <= n)%nat -> exists e, fn j = Throw e) ->
  exists e, withRetry fn n = Throw e.
Proof.
  intros Hall. destruct (withRetry fn n) as [a|e] eqn:E; [|eauto].
  unfold withRetry in E.
  apply (proj1 (withRetryLoop_spec fn n n 0 ltac:(lia)) a) in E.
  destruct E as (k & Hk & Hfk & _). destruct (Hall k ltac:(lia)) as [e He]. congruence.
Qed.

Lemma estimatedGas_value (chainName : string) :
  match estimatedGasLimits chainName with
  | Some g => if Z.eqb g 0 then 300000%Z else g
  | None => 300000%Z
  end = if String.eqb chainName "sonic" then 250000%Z else 300000%Z.
Proof.
  unfold estimatedGasLimits.
  destruct (String.eqb chainName "avalanche") eqn:Ea.
  - apply String.eqb_eq in Ea. subst. reflexivity.
  - destruct (String.eqb chainName "sonic"); reflexivity.
Qed.

Lemma totalCostOr0_insert (gasCosts : gmap string GasCost) (c : string) (gp lim : Z) (now : Z) :
  totalCostOr0 (<[c := mkGasCost gp lim (gp * lim) now]> gasCosts) c = (gp * lim)%Z.
Proof.
  unfold totalCostOr0. rewrite lookup_insert_eq. cbn [totalCost].
  destruct (Z.eqb_spec (gp * lim) 0); lia.
Qed.

Lemma totalCostOr0_insert_ne (gasCosts : gmap string GasCost) (c c' : string) (v : GasCost) :
  c <> c' -> totalCostOr0 (<[c := v]> gasCosts) c' = totalCostOr0 gasCosts c'.
Proof. intros H. unfold totalCostOr0. rewrite lookup_insert_ne by exact H. reflexivity. Qed.

(** X1. [withRetry] makes at most [maxRetries + 1] attempts: it returns the
    value of the first attempt that succeeds, and throws only when every
    attempt [0..maxRetries] failed, rethrowing the last attempt's error (its
    own "Max retries exceeded" is never reached). *)
Theorem withRetry_outcome {A : Type} (fn : nat -> Result A) (maxRetries : nat) :
  (forall a, withRetry fn maxRetries = Ok a <->
     exists i, (i <= maxRetries)%nat /\ fn i = Ok a /\
       forall j, (j < i)%nat -> exists e, fn j = Throw e) /\
  (forall e, withRetry fn maxRetries = Throw e ->
     fn maxRetries = Throw e /\ forall j, (j <= maxRetries)%nat -> exists e', fn j = Throw e').
Proof.
  destruct (withRetryLoop_spec fn maxRetries maxRetries 0 ltac:(lia)) as [Hok Hth].
  unfold withRetry. split.
  - intros a. rewrite Hok.
    split; intros (k & Hk & Hf & Hb); exists k; (split; [lia|]);
      (split; [exact Hf|]); intros j Hj; apply Hb; lia.
  - intros e H. destruct (Hth e H) as [Hn Hall]. split; [exact Hn|].
    intros j Hj. apply Hall. lia.
Qed.

(** X2. [estimateSwapGasCost] stores, under the chain's key only, the gas
    price of the first successful attempt among the four, the gas limit
    (250000 for sonic, 300000 for avalanche and any other chain) and their
    product; when all four attempts fail the table is left unchanged. *)
Theorem estimateSwapGasCost_entry (gasCosts : gmap string GasCost)
  (attempts : nat -> Result Z) (chainName : string) (now : Z) :
  let limit := if String.eqb chainName "sonic" then 250000%Z else 300000%Z in
  (forall i gp, (i <= MAX_RETRIES)%nat -> attempts i = Ok gp ->
     (forall j, (j < i)%nat -> exists e, attempts j = Throw e) ->
     estimateSwapGasCost gasCosts attempts chainName now !! chainName =
       Some (mkGasCost gp limit (gp * limit) now)) /\
  ((forall j, (j <= MAX_RETRIES)%nat -> exists e, attempts j = Throw e) ->
     estimateSwapGasCost gasCosts attempts chainName now = gasCosts) /\
  (forall c, c <> chainName ->
     estimateSwapGasCost gasCosts attempts chainName now !! c = gasCosts !! c).
Proof.
  intros limit. unfold estimateSwapGasCost. rewrite estimatedGas_value. fold limit.
  split; [|split].
  - intros i gp Hi Hf Hb. rewrite (withRetry_Ok attempts MAX_RETRIES i gp Hi Hf Hb).
    apply lookup_insert_eq.
  - intros Hall. destruct (withRetry_all_fail attempts MAX_RETRIES Hall) as [e ->]. reflexivity.
  - intros c Hc. destruct (withRetry attempts MAX_RETRIES); [|reflexivity].
    apply lookup_insert_ne. congruence.
Qed.

(** X3. One gas phase of [monitorPrices] ([getAllChainData] on avalanche,
    then on sonic, then [calculateTotalArbitrageGasCost]) totals, per chain,
    the fresh gas price times the chain's gas limit (300000 on avalanche,
    250000 on sonic), or the previously stored [totalCost] (0 if none) when
    that chain's gas-price reads all failed. *)
Theorem gas_phase_total (gasCosts : gmap string GasCost)
  (attemptsA attemptsS : nat -> Result Z) (t1 t2 : Z) :
  calculateTotalArbitrageGasCost
    (getAllChainData (getAllChainData gasCosts attemptsA "avalanche" t1) attemptsS "sonic" t2) =
  ((match withRetry attemptsA MAX_RETRIES with
    | Ok gp => gp * 300000 | Throw _ => totalCostOr0 gasCosts "avalanche" end) +
   (match withRetry attemptsS MAX_RETRIES with
    | Ok gp => gp * 250000 | Throw _ => totalCostOr0 gasCosts "sonic" end))%Z.
Proof.
  unfold calculateTotalArbitrageGasCost, getAllChainData, estimateSwapGasCost.
  assert (Ha : hasClient "avalanche" = true) by reflexivity.
  assert (Hs : hasClient "sonic" = true) by reflexivity.
  rewrite Ha, Hs, !estimatedGas_value. cbv zeta iota.
  change (String.eqb "avalanche" "sonic") with false. change (String.eqb "sonic" "sonic") with true.
  cbv iota.
  destruct (withRetry attemptsA MAX_RETRIES) as [ga|ea];
    destruct (withRetry attemptsS MAX_RETRIES) as [gs|es].
  - rewrite totalCostOr0_insert_ne by discriminate. rewrite totalCostOr0_insert.
    rewrite totalCostOr0_insert. reflexivity.
  - rewrite totalCostOr0_insert, totalCostOr0_insert_ne by discriminate. reflexivity.
  - rewrite totalCostOr0_insert_ne by discriminate. rewrite totalCostOr0_insert. reflexivity.
  - reflexivity.
Qed.

(** ** Price feeds, pool prices and metadata *)

Lemma priceCacheNonneg_spec (c : gmap string CachedPrice) :
  priceCacheNonneg c = true <-> map_Forall (fun _ e => 0 <= cached_price e) c.
Proof.
  unfold priceCacheNonneg. rewrite forallb_forall, map_Forall_to_list, Forall_forall.
  split; intros H [k e] Hin.
  - apply list_elem_of_In in Hin. specialize (H (k, e) Hin). cbn in *.
    apply Qle_bool_iff in H. exact H.
  - apply list_elem_of_In in Hin. specialize (H (k, e) Hin). cbn in *.
    apply Qle_bool_iff. exact H.
Qed.

Lemma gasCostsNonneg_spec (g : gmap string GasCost) :
  gasCostsNonneg g = true <-> map_Forall (fun _ v => (0 <= totalCost v)%Z) g.
Proof.
  unfold gasCostsNonneg. rewrite forallb_forall, map_Forall_to_list, Forall_forall.
  split; intros H [k v] Hin.
  - apply list_elem_of_In in Hin. specialize (H (k, v) Hin). cbn in *.
    apply Z.leb_le in H. exact H.
  - apply list_elem_of_In in Hin. specialize (H (k, v) Hin). cbn in *.
    apply Z.leb_le. exact H.
Qed.

Lemma PRICE_FEEDS_None_fallback (chain asset : string) :
  PRICE_FEEDS chain asset = None -> fallbackPrices chain asset = None.
Proof.
  unfold PRICE_FEEDS, fallbackPrices.
  destruct (String.eqb chain "avalanche"); [destruct (String.eqb asset "AVAX")|];
    [discriminate|reflexivity|].
  destruct (String.eqb chain "sonic"); [destruct (String.eqb asset "S")|];
    [discriminate|reflexivity|reflexivity].
Qed.

Lemma Qdiv_nonneg (a b : Q) : 0 <= a -> 0 <= b -> 0 <= a / b.
Proof.
  intros Ha Hb. unfold Qdiv. apply Qmult_le_0_compat; [exact Ha|].
  apply Qinv_le_0_compat. exact Hb.
Qed.

Lemma Qdiv_pos (a b : Q) : 0 < a -> 0 < b -> 0 < a / b.
Proof.
  intros Ha Hb. apply Qlt_shift_div_l; [exact Hb|]. rewrite Qmult_0_l. exact Ha.
Qed.

Lemma fallbackPrices_nonneg (chain asset : string) (p : Q) :
  fallbackPrices chain asset = Some p -> 0 <= p.
Proof.
  unfold fallbackPrices.
  destruct (String.eqb chain "avalanche"); [destruct (String.eqb asset "AVAX")|];
    [intros H; injection H as <-; discriminate|discriminate|].
  destruct (String.eqb chain "sonic"); [destruct (String.eqb asset "S")|];
    [intros H; injection H as <-; discriminate|discriminate|discriminate].
Qed.

(** X4. A price read from the feed is cached under [chain-asset] with the
    call's time, and any call within the next 30000 ms returns that price
    from the cache, whatever the feed would now return. *)
Theorem getUSDPrice_cache_roundtrip (priceCache : gmap string CachedPrice)
  (now now' answer : Z) (decimals_ : nat) (feed' : option (Z * nat)) (chain asset : string) :
  PRICE_FEEDS chain asset <> None ->
  (forall e, priceCache !! (chain +:+ "-" +:+ asset) = Some e ->
     (CACHE_DURATION <= now - cached_timestamp e)%Z) ->
  (now' - now < CACHE_DURATION)%Z ->
  let price := inject_Z answer / inject_Z (10 ^ Z.of_nat decimals_) in
  let cache1 := <[chain +:+ "-" +:+ asset := mkCachedPrice price now]> priceCache in
  getUSDPrice priceCache now (Some (answer, decimals_)) chain asset = (Ok price, cache1) /\
  getUSDPrice cache1 now' feed' chain asset = (Ok price, cache1).
Proof.
  intros Hfeed Hstale Hfresh price cache1. split.
  - unfold getUSDPrice.
    destruct (priceCache !! (chain +:+ "-" +:+ asset)) as [e|] eqn:E.
    + specialize (Hstale e eq_refl).
      destruct (Z.ltb_spec (now - cached_timestamp e) CACHE_DURATION); [lia|].
      destruct (PRICE_FEEDS chain asset); [reflexivity|congruence].
    + destruct (PRICE_FEEDS chain asset); [reflexivity|congruence].
  - unfold getUSDPrice, cache1. rewrite lookup_insert_eq. cbn [cached_timestamp cached_price].
    destruct (Z.ltb_spec (now' - now) CACHE_DURATION); [reflexivity|lia].
Qed.

(** X5. [getUSDPrice] writes nothing to [priceCache] except, after a
    successful feed read, the entry [chain-asset] holding the returned price
    and the call's time. *)
Theorem getUSDPrice_cache_update (priceCache : gmap string CachedPrice) (now : Z)
  (feed : option (Z * nat)) (chain asset : string) :
  snd (getUSDPrice priceCache now feed chain asset) = priceCache \/
  exists p, getUSDPrice priceCache now feed chain asset =
    (Ok p, <[chain +:+ "-" +:+ asset := mkCachedPrice p now]> priceCache).
Proof.
  unfold getUSDPrice.
  destruct (priceCache !! (chain +:+ "-" +:+ asset)) as [e|];
    [destruct (Z.ltb (now - cached_timestamp e) CACHE_DURATION); [left; reflexivity|]|];
    (destruct (PRICE_FEEDS chain asset);
     [destruct feed as [[answer d]|]; [right; eexists; reflexivity|]|]);
    left; destruct (fallbackPrices chain asset) as [p|];
      try destruct (truthyNumber p); reflexivity.
Qed.

(** X6. When the feed read fails and the cache holds no entry younger than
    30000 ms for [chain-asset], a stale cached price plays no part: the
    result is the one an empty cache gives (the hard-coded fallback or an
    error), and the cache is left unchanged. *)
Theorem getUSDPrice_stale_entry_ignored (priceCache : gmap string CachedPrice) (now : Z)
  (chain asset : string) :
  (forall e, priceCache !! (chain +:+ "-" +:+ asset) = Some e ->
     (CACHE_DURATION <= now - cached_timestamp e)%Z) ->
  getUSDPrice priceCache now None chain asset =
    (fst (getUSDPrice ∅ now None chain asset), priceCache).
Proof.
  intros Hstale. unfold getUSDPrice. rewrite lookup_empty.
  destruct (priceCache !! (chain +:+ "-" +:+ asset)) as [e|] eqn:E.
  - specialize (Hstale e eq_refl).
    destruct (Z.ltb_spec (now - cached_timestamp e) CACHE_DURATION); [lia|].
    destruct (PRICE_FEEDS chain asset); destruct (fallbackPrices chain asset) as [p|];
      try destruct (truthyNumber p); reflexivity.
  - destruct (PRICE_FEEDS chain asset); destruct (fallbackPrices chain asset) as [p|];
      try destruct (truthyNumber p); reflexivity.
Qed.

(** X7. For a chain and asset without a configured price feed, and no fresh
    cache entry, [getUSDPrice] throws "No price available for <asset> on
    <chain>" and leaves the cache unchanged, whatever the feed would return. *)
Theorem getUSDPrice_unknown_asset (priceCache : gmap string CachedPrice) (now : Z)
  (feed : option (Z * nat)) (chain asset : string) :
  PRICE_FEEDS chain asset = None ->
  (forall e, priceCache !! (chain +:+ "-" +:+ asset) = Some e ->
     (CACHE_DURATION <= now - cached_timestamp e)%Z) ->
  getUSDPrice priceCache now feed chain asset =
    (Throw ("No price available for " +:+ asset +:+ " on " +:+ chain), priceCache).
Proof.
  intros Hnone Hstale. pose proof (PRICE_FEEDS_None_fallback chain asset Hnone) as Hfb.
  unfold getUSDPrice. rewrite Hnone, Hfb.
  destruct (priceCache !! (chain +:+ "-" +:+ asset)) as [e|] eqn:E; [|reflexivity].
  specialize (Hstale e eq_refl).
  destruct (Z.ltb_spec (now - cached_timestamp e) CACHE_DURATION); [lia|reflexivity].
Qed.

Lemma Zle_Qle_0 (z : Z) : (0 <= z)%Z -> 0 <= inject_Z z.
Proof. intros H. change 0 with (inject_Z 0). rewrite <- Zle_Qle. exact H. Qed.

Lemma getUSDPrice_nonneg (priceCache : gmap string CachedPrice) (now : Z)
  (feed : option (Z * nat)) (chain asset : string) :
  priceCacheNonneg priceCache = true ->
  (forall answer d, feed = Some (answer, d) -> (0 <= answer)%Z) ->
  (forall p, fst (getUSDPrice priceCache now feed chain asset) = Ok p -> 0 <= p) /\
  priceCacheNonneg (snd (getUSDPrice priceCache now feed chain asset)) = true.
Proof.
  intros Hc Hf. pose proof Hc as Hc'. apply priceCacheNonneg_spec in Hc'.
  assert (Hfeed : forall answer d, feed = Some (answer, d) ->
            0 <= inject_Z answer / inject_Z (10 ^ Z.of_nat d)).
  { intros answer d E. apply Qdiv_nonneg; apply Zle_Qle_0; [exact (Hf _ _ E)|].
    apply Z.pow_nonneg. lia. }
  unfold getUSDPrice.
  destruct (priceCache !! (chain +:+ "-" +:+ asset)) as [e|] eqn:Ee;
    [destruct (Z.ltb (now - cached_timestamp e) CACHE_DURATION);
     [split; [intros p H; injection H as <-; exact (Hc' _ _ Ee)|exact Hc]|]|];
    (destruct (PRICE_FEEDS chain asset);
     [destruct feed as [[answer d]|];
      [split; [intros p H; injection H as <-; exact (Hfeed _ _ eq_refl)
              |apply priceCacheNonneg_spec, map_Forall_insert_2;
               [exact (Hfeed _ _ eq_refl)|exact Hc']]|]|]);
    destruct (fallbackPrices chain asset) as [fp|] eqn:Efp;
    try destruct (truthyNumber fp);
    (split; [|exact Hc]); intros p H; try discriminate;
    injection H as <-; exact (fallbackPrices_nonneg _ _ _ Efp).
Qed.

(** X8. With non-negative stored gas amounts, non-negative cached prices and
    a non-negative feed answer, [getGasCostInUSD] never reports a negative
    cost, and the cache it leaves holds only non-negative prices. *)
Theorem getGasCostInUSD_nonneg (gasCosts : gmap string GasCost)
  (priceCache : gmap string CachedPrice) (now : Z) (feed : option (Z * nat)) (chain : string) :
  gasCostsNonneg gasCosts = true ->
  priceCacheNonneg priceCache = true ->
  (forall answer d, feed = Some (answer, d) -> (0 <= answer)%Z) ->
  0 <= fst (getGasCostInUSD gasCosts priceCache now feed chain) /\
  priceCacheNonneg (snd (getGasCostInUSD gasCosts priceCache now feed chain)) = true.
Proof.
  intros Hg Hc Hf. apply gasCostsNonneg_spec in Hg.
  unfold getGasCostInUSD.
  destruct (gasCosts !! chain) as [gc|] eqn:Egc; [|split; [apply Qle_refl|exact Hc]].
  assert (Heth : 0 <= inject_Z (totalCost gc) / inject_Z (10 ^ 18)).
  { apply Qdiv_nonneg; apply Zle_Qle_0; [exact (Hg _ _ Egc)|lia]. }
  destruct (getUSDPrice_nonneg priceCache now feed chain
              (if String.eqb chain "avalanche" then "AVAX" else "S") Hc Hf) as [Hp Hcache].
  destruct (getUSDPrice priceCache now feed chain _) as [[p|msg] c'] eqn:Eu; cbn in *.
  - split; [|exact Hcache]. apply Qmult_le_0_compat; [exact Heth|exact (Hp p eq_refl)].
  - split; [apply Qle_refl|exact Hcache].
Qed.

Lemma calculatePriceFromSqrtPriceX96_pos (s : Z) (d0 d1 : nat) :
  s <> 0%Z -> 0 < calculatePriceFromSqrtPriceX96 s d0 d1.
Proof.
  intros Hs. unfold calculatePriceFromSqrtPriceX96.
  assert (H1 : (0 < 10 ^ Z.of_nat d1)%Z) by (apply Z.pow_pos_nonneg; lia).
  assert (H0 : (0 < 10 ^ Z.of_nat d0)%Z) by (apply Z.pow_pos_nonneg; lia).
  assert (Hss : (0 < s * s)%Z) by nia.
  apply Qdiv_pos; change 0 with (inject_Z 0); rewrite <- Zlt_Qlt; [nia|].
  assert (Hq : (0 < 2 ^ 96)%Z) by reflexivity. nia.
Qed.

(** X9. Once the chain's pool metadata is known and [slot0] returns a
    non-zero [sqrtPriceX96], [getPharaohPoolPrice] stores, under that chain
    only and with the call's time, the price [calculatePriceFromSqrtPriceX96]
    gives as [tokens1PerToken0] and its inverse as [tokens0PerToken1]: both are
    positive and their product is 1. Without metadata for the chain nothing
    is stored. *)
Theorem getPharaohPoolPrice_entry (lastPrices : gmap string LastPrice)
  (poolMetadata : gmap string PoolMetadataRecord) (chainName : string) (sqrtPriceX96 now : Z) :
  sqrtPriceX96 <> 0%Z ->
  let lp' := getPharaohPoolPrice lastPrices poolMetadata chainName (Some sqrtPriceX96) now in
  (poolMetadata !! chainName = None -> lp' = lastPrices) /\
  (forall md, poolMetadata !! chainName = Some md ->
     exists pp, lp' !! chainName = Some (mkLastPrice pp now) /\
       tokens1PerToken0 pp = calculatePriceFromSqrtPriceX96 sqrtPriceX96
                               (token_decimals (token0 md)) (token_decimals (token1 md)) /\
       0 < tokens1PerToken0 pp /\ 0 < tokens0PerToken1 pp /\
       tokens0PerToken1 pp * tokens1PerToken0 pp == 1) /\
  (forall c, c <> chainName -> lp' !! c = lastPrices !! c).
Proof.
  intros Hs lp'. unfold lp', getPharaohPoolPrice. split; [|split].
  - intros E. rewrite E. reflexivity.
  - intros md E. rewrite E. eexists. split; [apply lookup_insert_eq|]. cbn [tokens0PerToken1 tokens1PerToken0].
    pose proof (calculatePriceFromSqrtPriceX96_pos sqrtPriceX96
                  (token_decimals (token0 md)) (token_decimals (token1 md)) Hs) as Hp.
    set (p := calculatePriceFromSqrtPriceX96 _ _ _) in *.
    split; [reflexivity|]. split; [exact Hp|].
    split; [apply Qdiv_pos; [reflexivity|exact Hp]|].
    unfold Qdiv. rewrite Qmult_1_l, Qmult_comm. apply Qmult_inv_r.
    intros H. rewrite H in Hp. exact (Qlt_irrefl 0 Hp).
  - intros c Hc. destruct (poolMetadata !! chainName); [|reflexivity].
    apply lookup_insert_ne. congruence.
Qed.

(** X10. A successful [getPoolMetadata] caches its result under
    [chainName-poolAddress]; every later call for the same chain and address
    returns exactly that metadata (including the first call's pool name) from
    the cache, without reading the contracts. A call that throws leaves the
    cache unchanged. *)
Theorem getPoolMetadata_cache (poolMetadataCache : gmap string PoolMetadataRecord)
  (poolName chainName poolAddress : string) (reads : Result PoolReads) :
  (forall md cache', getPoolMetadata poolMetadataCache poolName chainName poolAddress reads =
       (Ok md, cache') ->
     cache' !! (chainName +:+ "-" +:+ poolAddress) = Some md /\
     forall poolName' reads',
       getPoolMetadata cache' poolName' chainName poolAddress reads' = (Ok md, cache')) /\
  (forall e cache', getPoolMetadata poolMetadataCache poolName chainName poolAddress reads =
       (Throw e, cache') -> cache' = poolMetadataCache).
Proof.
  unfold getPoolMetadata. split.
  - intros md cache' H.
    assert (Hin : cache' !! (chainName +:+ "-" +:+ poolAddress) = Some md).
    { destruct (poolMetadataCache !! _) as [m|] eqn:E.
      - injection H as <- <-. exact E.
      - destruct reads as [r|e]; [|discriminate].
        injection H as <- <-. apply lookup_insert_eq. }
    split; [exact Hin|]. intros poolName' reads'. rewrite Hin. reflexivity.
  - intros e cache' H. destruct (poolMetadataCache !! _) as [m|]; [discriminate|].
    destruct reads as [r|e']; [discriminate|]. injection H as _ <-. reflexivity.
Qed.

Lemma getPoolMetadata_key (poolMetadataCache : gmap string PoolMetadataRecord)
  (poolName chainName poolAddress : string) (reads : Result PoolReads) (md : PoolMetadataRecord) :
  fst (getPoolMetadata poolMetadataCache poolName chainName poolAddress reads) = Ok md ->
  snd (getPoolMetadata poolMetadataCache poolName chainName poolAddress reads)
    !! (chainName +:+ "-" +:+ poolAddress) = Some md.
Proof.
  unfold getPoolMetadata. destruct (poolMetadataCache !! _) as [m|] eqn:E.
  - cbn. intros H. injection H as <-. exact E.
  - destruct reads as [r|e]; cbn; [|discriminate].
    intros H. injection H as <-. apply lookup_insert_eq.
Qed.

Lemma getPoolMetadata_other (poolMetadataCache : gmap string PoolMetadataRecord)
  (poolName chainName poolAddress : string) (reads : Result PoolReads) (k : string) :
  k <> chainName +:+ "-" +:+ poolAddress ->
  snd (getPoolMetadata poolMetadataCache poolName chainName poolAddress reads) !! k =
    poolMetadataCache !! k.
Proof.
  intros Hk. unfold getPoolMetadata. destruct (poolMetadataCache !! _); [reflexivity|].
  destruct reads as [r|e]; cbn; [|reflexivity].
  apply lookup_insert_ne. congruence.
Qed.

Lemma getPoolMetadata_fst_ext (c1 c2 : gmap string PoolMetadataRecord)
  (poolName chainName poolAddress : string) (reads : Result PoolReads) :
  c1 !! (chainName +:+ "-" +:+ poolAddress) = c2 !! (chainName +:+ "-" +:+ poolAddress) ->
  fst (getPoolMetadata c1 poolName chainName poolAddress reads) =
    fst (getPoolMetadata c2 poolName chainName poolAddress reads).
Proof. intros E. unfold getPoolMetadata. rewrite E. destruct (c2 !! _), reads; reflexivity. Qed.

Lemma pool_keys_differ :
  ("sonic" +:+ "-" +:+ SHADOW_POOL_SONIC) <> ("avalanche" +:+ "-" +:+ PHARAOH_POOL_AVALANCHE).
Proof. vm_compute. intros H. discriminate H. Qed.

(** The Shadow call of [getAllPoolMetadata] answers as it would on the cache
    it started from. *)
Lemma getAllPoolMetadata_shadow_fst (poolMetadataCache : gmap string PoolMetadataRecord)
  (readsP readsS : Result PoolReads) :
  fst (getPoolMetadata (snd (getPoolMetadata poolMetadataCache "Pharaoh" "avalanche"
                               PHARAOH_POOL_AVALANCHE readsP))
         "Shadow" "sonic" SHADOW_POOL_SONIC readsS) =
  fst (getPoolMetadata poolMetadataCache "Shadow" "sonic" SHADOW_POOL_SONIC readsS).
Proof.
  apply getPoolMetadata_fst_ext. apply getPoolMetadata_other. exact pool_keys_differ.
Qed.

(** X17. after [getAllPoolPrices] with both pools' metadata available, each
    chain's [lastPrices] entry is the price its [slot0] read gives at the
    decimals of its own pool's tokens, stamped with the time of that chain's
    read, or the old entry when that read failed; no other entry changes. *)
Theorem getAllPoolPrices_prices (lastPrices : gmap string LastPrice)
  (poolMetadataCache : gmap string PoolMetadataRecord) (readsP readsS : Result PoolReads)
  (shadowRejectsFirst : bool) (slot0A slot0S : option Z) (nowA nowS : Z)
  (mdP mdS : PoolMetadataRecord) :
  fst (getPoolMetadata poolMetadataCache "Pharaoh" "avalanche" PHARAOH_POOL_AVALANCHE readsP) = Ok mdP ->
  fst (getPoolMetadata poolMetadataCache "Shadow" "sonic" SHADOW_POOL_SONIC readsS) = Ok mdS ->
  let lp' := fst (getAllPoolPrices lastPrices poolMetadataCache readsP readsS shadowRejectsFirst
                    slot0A slot0S nowA nowS) in
  lp' !! "avalanche" =
    match slot0A with
    | Some sA => let p := calculatePriceFromSqrtPriceX96 sA (token_decimals (token0 mdP))
                            (token_decimals (token1 mdP)) in
                 Some (mkLastPrice (mkPoolPrice (1 / p) p) nowA)
    | None => lastPrices !! "avalanche"
    end /\
  lp' !! "sonic" =
    match slot0S with
    | Some sS => let p := calculatePriceFromSqrtPriceX96 sS (token_decimals (token0 mdS))
                            (token_decimals (token1 mdS)) in
                 Some (mkLastPrice (mkPoolPrice (1 / p) p) nowS)
    | None => lastPrices !! "sonic"
    end /\
  (forall c, c <> "avalanche" -> c <> "sonic" -> lp' !! c = lastPrices !! c).
Proof.
  intros HP HS lp'. subst lp'.
  pose proof (getAllPoolMetadata_shadow_fst poolMetadataCache readsP readsS) as Hsh.
  rewrite HS in Hsh.
  unfold getAllPoolPrices, getAllPoolMetadata.
  destruct (getPoolMetadata poolMetadataCache "Pharaoh" "avalanche" _ readsP) as [rP c1] eqn:EP.
  cbn in HP, Hsh. subst rP.
  destruct (getPoolMetadata c1 "Shadow" "sonic" _ readsS) as [rS c2] eqn:ES.
  cbn in Hsh. subst rS. cbn [fst].
  unfold getShadowPoolPrice, getPharaohPoolPrice.
  set (pm := <["avalanche" := mdP]> (<["sonic" := mdS]> (∅ : gmap string PoolMetadataRecord))).
  assert (HA : pm !! "avalanche" = Some mdP) by apply lookup_insert_eq.
  assert (HB : pm !! "sonic" = Some mdS).
  { unfold pm. rewrite lookup_insert_ne by discriminate. apply lookup_insert_eq. }
  rewrite HA, HB.
  destruct slot0A as [sA|], slot0S as [sS|]; cbv zeta;
    repeat split; intros;
    repeat first [ rewrite lookup_insert_eq | rewrite lookup_insert_ne by congruence ];
    reflexivity.
Qed.

(** X18. when either pool's metadata cannot be loaded, [getAllPoolPrices]
    leaves [lastPrices] unchanged; a pool whose metadata did load is cached
    all the same. *)
Theorem getAllPoolPrices_metadata_failure (lastPrices : gmap string LastPrice)
  (poolMetadataCache : gmap string PoolMetadataRecord) (readsP readsS : Result PoolReads)
  (shadowRejectsFirst : bool) (slot0A slot0S : option Z) (nowA nowS : Z) :
  let res := getAllPoolPrices lastPrices poolMetadataCache readsP readsS shadowRejectsFirst
               slot0A slot0S nowA nowS in
  ((exists e, fst (getPoolMetadata poolMetadataCache "Pharaoh" "avalanche"
                     PHARAOH_POOL_AVALANCHE readsP) = Throw e) \/
   (exists e, fst (getPoolMetadata poolMetadataCache "Shadow" "sonic"
                     SHADOW_POOL_SONIC readsS) = Throw e)) ->
  fst res = lastPrices /\
  (forall md, fst (getPoolMetadata poolMetadataCache "Pharaoh" "avalanche"
                     PHARAOH_POOL_AVALANCHE readsP) = Ok md ->
     snd res !! ("avalanche" +:+ "-" +:+ PHARAOH_POOL_AVALANCHE) = Some md) /\
  (forall md, fst (getPoolMetadata poolMetadataCache "Shadow" "sonic"
                     SHADOW_POOL_SONIC readsS) = Ok md ->
     snd res !! ("sonic" +:+ "-" +:+ SHADOW_POOL_SONIC) = Some md).
Proof.
  intros res Hfail. subst res.
  pose proof (getAllPoolMetadata_shadow_fst poolMetadataCache readsP readsS) as Hsh.
  pose proof (getPoolMetadata_key poolMetadataCache "Pharaoh" "avalanche"
                PHARAOH_POOL_AVALANCHE readsP) as KP.
  pose proof (getPoolMetadata_other (snd (getPoolMetadata poolMetadataCache "Pharaoh" "avalanche"
                PHARAOH_POOL_AVALANCHE readsP)) "Shadow" "sonic" SHADOW_POOL_SONIC readsS
                ("avalanche" +:+ "-" +:+ PHARAOH_POOL_AVALANCHE)
                (not_eq_sym pool_keys_differ)) as OS.
  pose proof (getPoolMetadata_key (snd (getPoolMetadata poolMetadataCache "Pharaoh" "avalanche"
                PHARAOH_POOL_AVALANCHE readsP)) "Shadow" "sonic" SHADOW_POOL_SONIC readsS) as KS.
  rewrite <- Hsh in Hfail |- *.
  unfold getAllPoolPrices, getAllPoolMetadata.
  destruct (getPoolMetadata poolMetadataCache "Pharaoh" "avalanche" _ readsP) as [rP c1] eqn:EP.
  cbn [fst snd] in *.
  destruct (getPoolMetadata c1 "Shadow" "sonic" _ readsS) as [rS c2] eqn:ES.
  cbn [fst snd] in *.
  split; [|split].
  - destruct Hfail as [[e He]|[e He]]; [subst rP; destruct rS | subst rS; destruct rP];
      try destruct shadowRejectsFirst; reflexivity.
  - intros md Hmd. subst rP. destruct rS; cbn [snd]; rewrite OS; apply KP; reflexivity.
  - intros md Hmd. subst rS. rewrite Hmd. destruct rP; cbn [snd]; apply KS; exact Hmd.
Qed.

(** ** Portfolio value and statistics *)

Lemma paperValue_acc (l : list (string * TokenBalance)) (a : Q) :
  fold_left paperValueStep l a == a + fold_left paperValueStep l 0.
Proof.
  revert a. induction l as [|x l IH]; intros a; cbn [fold_left].
  - lra.
  - rewrite (IH (paperValueStep a x)), (IH (paperValueStep 0 x)).
    unfold paperValueStep. lra.
Qed.

Lemma paperValue_perm (l l' : list (string * TokenBalance)) (a : Q) :
  Permutation l l' -> fold_left paperValueStep l a == fold_left paperValueStep l' a.
Proof.
  intros Hp. revert a. induction Hp as [|x l l' Hp IH|x y l|l l' l'' H1 IH1 H2 IH2]; intros a.
  - reflexivity.
  - cbn [fold_left]. apply IH.
  - cbn [fold_left]. rewrite (paperValue_acc l), (paperValue_acc l (paperValueStep _ y)).
    unfold paperValueStep. lra.
  - rewrite (IH1 a). apply IH2.
Qed.

Lemma calculateTotalPaperValue_insert (m : gmap string TokenBalance) (k : string)
  (v : TokenBalance) :
  calculateTotalPaperValue (<[k := v]> m) ==
  calculateTotalPaperValue m - (usdc (getPaperBalance m k 0) + usdt (getPaperBalance m k 0))
  + (usdc v + usdt v).
Proof.
  unfold calculateTotalPaperValue, getPaperBalance.
  destruct (m !! k) as [b|] eqn:E.
  - rewrite <- (insert_delete_eq m k v).
    rewrite (paperValue_perm _ _ 0 (map_to_list_insert (delete k m) k v (lookup_delete_eq m k))).
    rewrite <- (paperValue_perm _ _ 0 (map_to_list_delete m k b E)).
    cbn [fold_left].
    rewrite (paperValue_acc _ (paperValueStep 0 (k, v))),
            (paperValue_acc _ (paperValueStep 0 (k, b))).
    unfold paperValueStep. cbn [snd usdc usdt]. lra.
  - rewrite (paperValue_perm _ _ 0 (map_to_list_insert m k v E)).
    cbn [fold_left]. rewrite (paperValue_acc _ (paperValueStep 0 (k, v))).
    unfold paperValueStep. cbn [snd usdc usdt]. lra.
Qed.

Lemma executeUSDC_paperValue (PT : Q) (s : Ledger) (now : Z) (tradeId buyChain sellChain : string)
  (bp sp a g1 g2 : Q) :
  buyChain <> sellChain ->
  let s' := executeUSDCTargetedArbitrage PT s now tradeId buyChain sellChain bp sp a g1 g2 in
  s' = s \/
  exists t, paperTrades s' = paperTrades s ++ [t] /\
    calculateTotalPaperValue (paperBalances s') ==
      calculateTotalPaperValue (paperBalances s) + profit t.
Proof.
  intros Hne s'. subst s'.
  pose proof (executeUSDC_cases PT s now tradeId buyChain sellChain bp sp a g1 g2) as Hx.
  cbv zeta in Hx. destruct Hx as [E|(_ & _ & E)]; [left; exact E|right].
  rewrite E. eexists. split; [reflexivity|]. cbn [paperBalances profit].
  rewrite !calculateTotalPaperValue_insert.
  rewrite getPaperBalance_insert, decide_False by exact Hne. cbn [usdc usdt].
  rewrite !(usdc_getPaperBalance_now _ _ now 0), !(usdt_getPaperBalance_now _ _ now 0). lra.
Qed.

Lemma executeUSDT_paperValue (PT : Q) (s : Ledger) (now : Z) (tradeId buyChain sellChain : string)
  (bp sp a g1 g2 : Q) :
  buyChain <> sellChain ->
  let s' := executeUSDTTargetedArbitrage PT s now tradeId buyChain sellChain bp sp a g1 g2 in
  s' = s \/
  exists t, paperTrades s' = paperTrades s ++ [t] /\
    calculateTotalPaperValue (paperBalances s') ==
      calculateTotalPaperValue (paperBalances s) + profit t.
Proof.
  intros Hne s'. subst s'.
  pose proof (executeUSDT_cases PT s now tradeId buyChain sellChain bp sp a g1 g2) as Hx.
  cbv zeta in Hx. destruct Hx as [E|(_ & _ & E)]; [left; exact E|right].
  rewrite E. eexists. split; [reflexivity|]. cbn [paperBalances profit].
  rewrite !calculateTotalPaperValue_insert.
  rewrite getPaperBalance_insert, decide_False by exact Hne. cbn [usdc usdt].
  rewrite !(usdc_getPaperBalance_now _ _ now 0), !(usdt_getPaperBalance_now _ _ now 0). lra.
Qed.

Lemma checkArbitrageOpportunities_paperValue (PT : Q) (s : Ledger) (inp : CycleInput) :
  let s' := checkArbitrageOpportunities PT s inp in
  s' = s \/
  exists t, paperTrades s' = paperTrades s ++ [t] /\
    calculateTotalPaperValue (paperBalances s') ==
      calculateTotalPaperValue (paperBalances s) + profit t.
Proof.
  intros s'. subst s'.
  destruct (checkArbitrageOpportunities_cases PT s inp)
    as [Hc|(ap & sp & x & y & _ & _ & _ & _ & Hc)]; [left; exact Hc|].
  cbv zeta in Hc.
  assert (Hch : forall b : bool,
    (if b then "avalanche" else "sonic") <> (if b then "sonic" else "avalanche"))
    by (intros []; discriminate).
  destruct Hc as [Hc|Hc]; rewrite Hc.
  - match goal with |- context [checkUSDCTargetedArbitrage _ _ ?n ?i ?eg ?b ?sl ?bp ?spp ?g] =>
      destruct (checkUSDC_cases PT s n i eg b sl bp spp g) as [E|(a & _ & E)] end;
      rewrite E; [left; reflexivity|].
    match goal with |- context [executeUSDCTargetedArbitrage _ _ ?n ?i ?b ?sl ?bp ?spp ?a ?g1 ?g2] =>
      exact (executeUSDC_paperValue PT s n i b sl bp spp a g1 g2 (Hch _)) end.
  - match goal with |- context [checkUSDTTargetedArbitrage _ _ ?n ?i ?eg ?b ?sl ?bp ?spp ?g] =>
      destruct (checkUSDT_cases PT s n i eg b sl bp spp g) as [E|(a & _ & E)] end;
      rewrite E; [left; reflexivity|].
    match goal with |- context [executeUSDTTargetedArbitrage _ _ ?n ?i ?b ?sl ?bp ?spp ?a ?g1 ?g2] =>
      exact (executeUSDT_paperValue PT s n i b sl bp spp a g1 g2 (Hch _)) end.
Qed.

(** X11. Over any run of price-monitoring cycles, [calculateTotalPaperValue]
    (the sum of USDC and USDT over every entry of [paperBalances], whatever
    chains it holds) grows by exactly the summed gross profits of the trade
    records the run appends. *)
Theorem calculateTotalPaperValue_runCycles (PT : Q) (s : Ledger) (inps : list CycleInput) :
  exists l, paperTrades (runCycles PT s inps) = paperTrades s ++ l /\
    calculateTotalPaperValue (paperBalances (runCycles PT s inps)) ==
      calculateTotalPaperValue (paperBalances s) + sumProfit l.
Proof.
  revert s. induction inps as [|inp rest IH]; intros s; cbn [runCycles].
  - exists []. rewrite app_nil_r. split; [reflexivity|]. cbn. lra.
  - destruct (IH (checkArbitrageOpportunities PT s inp)) as (l & Hl & Hv).
    destruct (checkArbitrageOpportunities_paperValue PT s inp) as [E|(t & Ht & Hvt)].
    + rewrite E in Hl, Hv |- *. exists l. split; [exact Hl|exact Hv].
    + exists (t :: l). split; [rewrite Hl, Ht, <- app_assoc; reflexivity|].
      rewrite Hv, Hvt. cbn [sumProfit fold_right]. unfold sumProfit. lra.
Qed.

Lemma filter_length_le {A : Type} (f : A -> bool) (l : list A) :
  (length (List.filter f l) <= length l)%nat.
Proof.
  induction l as [|x l IH]; cbn [List.filter length]; [lia|].
  destruct (f x); cbn [length]; lia.
Qed.

Lemma filter_all {A : Type} (f : A -> bool) (l : list A) :
  Forall (fun x => f x = true) l -> List.filter f l = l.
Proof.
  induction 1 as [|x l Hx _ IH]; cbn [List.filter]; [reflexivity|].
  rewrite Hx, IH. reflexivity.
Qed.

(** X12. [getPaperTradingStats] never counts more profitable trades than
    trades, its win rate lies between 0 and 100, and with no trades the win
    rate is 0. *)
Theorem getPaperTradingStats_bounds (s : Ledger) :
  let st := getPaperTradingStats s in
  (profitableTrades st <= totalTrades st)%nat /\ 0 <= winRate st /\ winRate st <= 100 /\
  (totalTrades st = 0%nat -> winRate st == 0).
Proof.
  cbn zeta. unfold getPaperTradingStats. cbn [profitableTrades totalTrades winRate].
  pose proof (filter_length_le (fun trade => Qlt_bool 0 (netProfit trade)) (paperTrades s)) as Hle.
  set (p := length (List.filter _ _)) in *. set (n := length (paperTrades s)) in *.
  split; [exact Hle|].
  destruct (Nat.ltb_spec 0 n) as [Hn|Hn].
  - assert (Hnq : 0 < inject_Z (Z.of_nat n)).
    { change 0 with (inject_Z 0). rewrite <- Zlt_Qlt. lia. }
    assert (Hpq : 0 <= inject_Z (Z.of_nat p)) by (apply Zle_Qle_0; lia).
    assert (Hpn : inject_Z (Z.of_nat p) <= inject_Z (Z.of_nat n)) by (rewrite <- Zle_Qle; lia).
    assert (Hr : inject_Z (Z.of_nat p) / inject_Z (Z.of_nat n) <= 1).
    { apply Qle_shift_div_r; [exact Hnq|]. lra. }
    assert (Hr0 : 0 <= inject_Z (Z.of_nat p) / inject_Z (Z.of_nat n))
      by (apply Qdiv_nonneg; lra).
    split; [lra|]. split; [lra|]. intros H. lia.
  - split; [apply Qle_refl|]. split; [discriminate|]. intros _. reflexivity.
Qed.

Lemma runCycles_appended (PT : Q) (s : Ledger) (inps : list CycleInput) :
  exists l, paperTrades (runCycles PT s inps) = paperTrades s ++ l /\
    Forall (fun t => status t = executed /\ PT < netProfit t) l.
Proof.
  revert s. induction inps as [|inp rest IH]; intros s; cbn [runCycles].
  - exists []. rewrite app_nil_r. split; [reflexivity|constructor].
  - destruct (checkArbitrageOpportunities_trades PT s inp) as (l1 & H1 & F1).
    destruct (IH (checkArbitrageOpportunities PT s inp)) as (l2 & H2 & F2).
    exists (l1 ++ l2). split.
    + rewrite H2, H1, app_assoc. reflexivity.
    + apply Forall_app. split; assumption.
Qed.

Lemma fold_netProfit_ge (PT : Q) (l : list PaperTrade) (a : Q) :
  Forall (fun t => PT < netProfit t) l ->
  a + inject_Z (Z.of_nat (length l)) * PT <= fold_left (fun sum t => sum + netProfit t) l a.
Proof.
  intros H. revert a. induction H as [|t l Ht _ IH]; intros a; cbn [fold_left length].
  - change (inject_Z (Z.of_nat 0)) with 0. lra.
  - specialize (IH (a + netProfit t)).
    rewrite Nat2Z.inj_succ, <- Z.add_1_r, inject_Z_plus. change (inject_Z 1) with 1. lra.
Qed.

(** X13. Starting from the empty trade history, with a non-negative
    [PROFIT_THRESHOLD], after any run of cycles every recorded trade counts as
    profitable (so the win rate is 100 once a trade exists) and the reported
    total net profit exceeds the number of trades times the threshold. *)
Theorem getPaperTradingStats_after_run (PT : Q) (s : Ledger) (inps : list CycleInput) :
  paperTrades s = [] -> 0 <= PT ->
  let st := getPaperTradingStats (runCycles PT s inps) in
  profitableTrades st = totalTrades st /\
  ((0 < totalTrades st)%nat -> winRate st == 100) /\
  inject_Z (Z.of_nat (totalTrades st)) * PT <= totalProfit st.
Proof.
  intros Hnil HPT st. subst st.
  destruct (runCycles_appended PT s inps) as (l & Hl & Fl). rewrite Hnil in Hl. cbn in Hl.
  unfold getPaperTradingStats. cbn [profitableTrades totalTrades winRate totalProfit].
  rewrite Hl.
  assert (Hall : List.filter (fun trade => Qlt_bool 0 (netProfit trade)) l = l).
  { apply filter_all. eapply Forall_impl; [exact Fl|]. intros t [_ Ht].
    apply Qlt_bool_true. lra. }
  rewrite Hall. split; [reflexivity|]. split.
  - intros Hn. destruct (Nat.ltb_spec 0 (length l)) as [_|H]; [|lia].
    assert (Hnz : ~ inject_Z (Z.of_nat (length l)) == 0).
    { change 0 with (inject_Z 0). rewrite inject_Z_injective. lia. }
    unfold Qdiv. rewrite Qmult_inv_r by exact Hnz. reflexivity.
  - pose proof (fold_netProfit_ge PT l 0) as H.
    assert (Hf : Forall (fun t => PT < netProfit t) l)
      by (eapply Forall_impl; [exact Fl|]; intros t [_ Ht]; exact Ht).
    specialize (H Hf). lra.
Qed.

(** X14. The deprecated [executeArbitrage] always trades 1000 USDC; called
    with the same chain as source and target, an executed trade loses the
    1000 USDC debit (the credit is computed from the pre-trade balance and
    overwrites it): that chain's USDC rises by the whole received amount, and
    [calculateTotalPaperValue] by the amount plus the recorded gross profit. *)
Theorem executeArbitrage_same_chain (PT : Q) (s : Ledger) (now : Z) (tradeId c : string)
  (sourcePrice_ targetPrice_ g1 g2 : Q) :
  let s' := executeArbitrage PT s now tradeId c c sourcePrice_ targetPrice_ g1 g2 in
  let b := getPaperBalance (paperBalances s) c now in
  s' = s \/
  exists t, paperTrades s' = paperTrades s ++ [t] /\ amount t = 1000 /\
    paperBalances s' !! c =
      Some (mkTokenBalance (usdc b + 1000 / sourcePrice_ * targetPrice_) (usdt b) now) /\
    calculateTotalPaperValue (paperBalances s') ==
      calculateTotalPaperValue (paperBalances s) + amount t + profit t.
Proof.
  intros s' b. subst s'. unfold executeArbitrage.
  pose proof (executeUSDC_cases PT s now tradeId c c sourcePrice_ targetPrice_ 1000 g1 g2) as Hx.
  cbv zeta in Hx. destruct Hx as [E|(_ & _ & E)]; [left; exact E|right].
  rewrite E. eexists. split; [reflexivity|]. cbn [paperBalances profit amount].
  split; [reflexivity|]. split; [apply lookup_insert_eq|].
  rewrite !calculateTotalPaperValue_insert.
  rewrite getPaperBalance_insert, decide_True by reflexivity. cbn [usdc usdt].
  subst b. rewrite !(usdc_getPaperBalance_now _ _ now 0), !(usdt_getPaperBalance_now _ _ now 0).
  lra.
Qed.

(** ** Trade sizing and commit *)

(** X15. When the price ratio exceeds 1, [calculateMinimumTradeAmount] rounds
    [(requiredNetProfit + totalGasUSD) / (ratio - 1)] up to a whole multiple
    of 1e-6: the result is at least that quotient and less than 1e-6 above
    it. With non-negative gas and threshold the result is then positive, so
    the callers' [=== 0] test fires exactly when the ratio is at most 1. *)
Theorem calculateMinimumTradeAmount_rounding (PT bp sp gas : Q) (isUSDCTargeted : bool) :
  let priceRatio := if isUSDCTargeted then sp / bp else bp / sp in
  let minTradeAmount := (gas + PT + (1 # 1000000) + gas) / (priceRatio - 1) in
  let r := calculateMinimumTradeAmount PT bp sp gas isUSDCTargeted in
  1 < priceRatio ->
  minTradeAmount <= r /\ r < minTradeAmount + (1 # 1000000) /\
  (exists z : Z, r == inject_Z z / 1000000) /\
  (0 <= gas -> 0 <= PT -> 0 < r).
Proof.
  intros priceRatio minTradeAmount r Hr. subst r.
  unfold calculateMinimumTradeAmount. cbv zeta. fold priceRatio.
  assert (Hb : Qle_bool priceRatio 1 = false).
  { destruct (Qle_bool priceRatio 1) eqn:E; [|reflexivity].
    apply Qle_bool_iff in E. exfalso. apply (Qlt_not_le _ _ Hr E). }
  rewrite Hb. fold minTradeAmount.
  pose proof (Qle_ceiling (minTradeAmount * 1000000)) as Hc1.
  pose proof (Qceiling_lt (minTradeAmount * 1000000)) as Hc2.
  unfold Z.sub in Hc2. rewrite inject_Z_plus in Hc2.
  set (c := inject_Z (Qceiling (minTradeAmount * 1000000))) in *.
  assert (Hc3 : c - 1 < minTradeAmount * 1000000) by exact Hc2. clear Hc2.
  assert (Hm : 0 <= gas -> 0 <= PT -> 0 < minTradeAmount) by (intros; apply Qdiv_pos; lra).
  clearbody minTradeAmount.
  split; [|split; [|split]].
  - apply Qle_shift_div_l; [reflexivity|exact Hc1].
  - apply Qlt_shift_div_r; [reflexivity|]. lra.
  - exists (Qceiling (minTradeAmount * 1000000)). reflexivity.
  - intros Hg Hp. apply Qdiv_pos; [|reflexivity].
    specialize (Hm Hg Hp). lra.
Qed.

Lemma checkUSDCTargetedDecision_Execute (PT avail bp sp gas a : Q) :
  checkUSDCTargetedDecision PT avail bp sp gas = Execute a ->
  a <= avail /\ PT < a / bp * sp - a - gas.
Proof.
  intros H. pose proof (checkUSDCTargetedDecision_ge_100 PT avail bp sp gas a H) as H100.
  revert H. unfold checkUSDCTargetedDecision.
  destruct (Qeq_bool _ 0); [discriminate|].
  destruct (Qlt_bool _ _) eqn:E; [discriminate|].
  destruct (Qlt_bool PT _) eqn:E2; [|discriminate].
  intros H. apply (f_equal (fun o => match o with Execute x => x | _ => a end)) in H.
  cbv beta iota in H. subst a. apply Qlt_bool_true in E2.
  split; [|exact E2].
  pose proof (Qfloor_le (avail * (1 # 2))) as Hf.
  pose proof (Q.le_min_l (inject_Z (Qfloor (avail * (1 # 2))))
                (Qmax (calculateMinimumTradeAmount PT bp sp gas true) 100)) as Hm.
  lra.
Qed.

Lemma checkUSDTTargetedDecision_Execute (PT avail bp sp gas a : Q) :
  checkUSDTTargetedDecision PT avail bp sp gas = Execute a ->
  a <= avail /\ PT < a * bp / sp - a - gas.
Proof.
  intros H. pose proof (checkUSDTTargetedDecision_ge_100 PT avail bp sp gas a H) as H100.
  revert H. unfold checkUSDTTargetedDecision.
  destruct (Qeq_bool _ 0); [discriminate|].
  destruct (Qlt_bool _ _) eqn:E; [discriminate|].
  destruct (Qlt_bool PT _) eqn:E2; [|discriminate].
  intros H. apply (f_equal (fun o => match o with Execute x => x | _ => a end)) in H.
  cbv beta iota in H. subst a. apply Qlt_bool_true in E2.
  split; [|exact E2].
  pose proof (Qfloor_le (avail * (1 # 2))) as Hf.
  pose proof (Q.le_min_l (inject_Z (Qfloor (avail * (1 # 2))))
                (Qmax (calculateMinimumTradeAmount PT bp sp gas false) 100)) as Hm.
  lra.
Qed.

(** X16. When a targeted check decides to trade an amount and the gas costs
    re-read at commit time add up to the total the check used, the trade is
    committed: exactly one record is appended, for that amount, from the buy
    chain to the sell chain, with the net profit the check estimated. (The
    balance re-check cannot fail: the amount is at most half the balance.) *)
Theorem check_then_commit (PT : Q) (s : Ledger) (now : Z) (tradeId : string)
  (execGas : string -> Q) (buyChain sellChain : string) (bp sp gas a : Q) :
  execGas buyChain + execGas sellChain == gas ->
  (checkUSDCTargetedDecision PT (usdc (getPaperBalance (paperBalances s) buyChain now))
     bp sp gas = Execute a ->
   exists t, paperTrades (checkUSDCTargetedArbitrage PT s now tradeId execGas buyChain
                            sellChain bp sp gas) = paperTrades s ++ [t] /\
     amount t = a /\ sourceChain t = buyChain /\ targetChain t = sellChain /\
     netProfit t == a / bp * sp - a - gas) /\
  (checkUSDTTargetedDecision PT (usdt (getPaperBalance (paperBalances s) buyChain now))
     bp sp gas = Execute a ->
   exists t, paperTrades (checkUSDTTargetedArbitrage PT s now tradeId execGas buyChain
                            sellChain bp sp gas) = paperTrades s ++ [t] /\
     amount t = a /\ sourceChain t = buyChain /\ targetChain t = sellChain /\
     netProfit t == a * bp / sp - a - gas).
Proof.
  intros Hgas. split; intros Hd.
  - destruct (checkUSDCTargetedDecision_Execute _ _ _ _ _ _ Hd) as [Hle Hp].
    unfold checkUSDCTargetedArbitrage. rewrite Hd.
    unfold executeUSDCTargetedArbitrage. cbv zeta.
    assert (E1 : Qlt_bool (usdc (getPaperBalance (paperBalances s) buyChain now)) a = false)
      by (apply Qlt_bool_false; exact Hle).
    assert (E2 : Qlt_bool PT (a / bp * sp - a - (execGas buyChain + execGas sellChain)) = true)
      by (apply Qlt_bool_true; rewrite Hgas; exact Hp).
    rewrite E1, E2. cbn [paperTrades]. eexists. split; [reflexivity|].
    cbn [amount sourceChain targetChain netProfit].
    split; [reflexivity|]. split; [reflexivity|]. split; [reflexivity|].
    rewrite Hgas. reflexivity.
  - destruct (checkUSDTTargetedDecision_Execute _ _ _ _ _ _ Hd) as [Hle Hp].
    unfold checkUSDTTargetedArbitrage. rewrite Hd.
    unfold executeUSDTTargetedArbitrage. cbv zeta.
    assert (E1 : Qlt_bool (usdt (getPaperBalance (paperBalances s) buyChain now)) a = false)
      by (apply Qlt_bool_false; exact Hle).
    assert (E2 : Qlt_bool PT (a * bp / sp - a - (execGas buyChain + execGas sellChain)) = true)
      by (apply Qlt_bool_true; rewrite Hgas; exact Hp).
    rewrite E1, E2. cbn [paperTrades]. eexists. split; [reflexivity|].
    cbn [amount sourceChain targetChain netProfit].
    split; [reflexivity|]. split; [reflexivity|]. split; [reflexivity|].
    rewrite Hgas. reflexivity.
Qed.

(** Witness of X4: a stale AVAX entry is refreshed at time 40000 and the
    refreshed price is served from the cache at time 50000. *)
Lemma getUSDPrice_cache_roundtrip_witness :
  getUSDPrice staleAvaxCache 40000 (Some (2500000000%Z, 8%nat)) "avalanche" "AVAX" =
    (Ok (inject_Z 2500000000 / inject_Z (10 ^ Z.of_nat 8)),
     <["avalanche" +:+ "-" +:+ "AVAX" :=
        mkCachedPrice (inject_Z 2500000000 / inject_Z (10 ^ Z.of_nat 8)) 40000]> staleAvaxCache).
Proof.
  refine (proj1 (getUSDPrice_cache_roundtrip staleAvaxCache 40000 50000 2500000000 8 None
                   "avalanche" "AVAX" _ _ _)).
  - vm_compute. discriminate.
  - intros e He. vm_compute in He. injection He as <-. vm_compute. discriminate.
  - reflexivity.
Defined.

(** Witness of X6: the stale AVAX entry is ignored without a feed answer. *)
Lemma getUSDPrice_stale_entry_ignored_witness :
  getUSDPrice staleAvaxCache 40000 None "avalanche" "AVAX" =
    (fst (getUSDPrice ∅ 40000 None "avalanche" "AVAX"), staleAvaxCache).
Proof.
  apply getUSDPrice_stale_entry_ignored.
  intros e He. vm_compute in He. injection He as <-. vm_compute. discriminate.
Defined.

(** Witness of X7: ETH on a chain without a feed. *)
Lemma getUSDPrice_unknown_asset_witness :
  getUSDPrice ∅ 0 (Some (1%Z, 0%nat)) "ethereum" "ETH" =
    (Throw ("No price available for " +:+ "ETH" +:+ " on " +:+ "ethereum"), ∅).
Proof.
  apply getUSDPrice_unknown_asset.
  - reflexivity.
  - intros e He. vm_compute in He. discriminate.
Defined.

(** Witness of X8: the sample gas data with an empty cache and a positive
    feed answer. *)
Lemma getGasCostInUSD_nonneg_witness :
  0 <= fst (getGasCostInUSD sampleGasCosts ∅ 1000 (Some (2500000000%Z, 8%nat)) "sonic") /\
  priceCacheNonneg (snd (getGasCostInUSD sampleGasCosts ∅ 1000 (Some (2500000000%Z, 8%nat)) "sonic")) = true.
Proof.
  apply getGasCostInUSD_nonneg.
  - vm_compute. reflexivity.
  - vm_compute. reflexivity.
  - intros answer d E. injection E as <- _. vm_compute. discriminate.
Defined.

(** Witness of X9: the Pharaoh pool at sqrtPriceX96 = 2^96. *)
Lemma getPharaohPoolPrice_entry_witness :
  exists pp, getPharaohPoolPrice ∅ (<["avalanche" := pharaohMetadata]> ∅) "avalanche"
                (Some 79228162514264337593543950336%Z) 5 !! "avalanche" = Some (mkLastPrice pp 5) /\
    tokens1PerToken0 pp = calculatePriceFromSqrtPriceX96 79228162514264337593543950336 6 6 /\
    0 < tokens1PerToken0 pp /\ 0 < tokens0PerToken1 pp /\
    tokens0PerToken1 pp * tokens1PerToken0 pp == 1.
Proof.
  exact (proj1 (proj2 (getPharaohPoolPrice_entry ∅ (<["avalanche" := pharaohMetadata]> ∅)
           "avalanche" 79228162514264337593543950336 5 ltac:(discriminate)))
           pharaohMetadata eq_refl).
Defined.

(** Witness of X13: one cycle on the USDC-heavy ledger with threshold 1/2. *)
Lemma getPaperTradingStats_after_run_witness :
  profitableTrades (getPaperTradingStats (runCycles (1 # 2) usdcHeavyLedger [spreadInput])) =
    totalTrades (getPaperTradingStats (runCycles (1 # 2) usdcHeavyLedger [spreadInput])) /\
  ((0 < totalTrades (getPaperTradingStats (runCycles (1 # 2) usdcHeavyLedger [spreadInput])))%nat ->
     winRate (getPaperTradingStats (runCycles (1 # 2) usdcHeavyLedger [spreadInput])) == 100) /\
  inject_Z (Z.of_nat (totalTrades (getPaperTradingStats (runCycles (1 # 2) usdcHeavyLedger [spreadInput]))))
    * (1 # 2) <= totalProfit (getPaperTradingStats (runCycles (1 # 2) usdcHeavyLedger [spreadInput])).
Proof.
  apply (getPaperTradingStats_after_run (1 # 2) usdcHeavyLedger [spreadInput]).
  - reflexivity.
  - vm_compute. discriminate.
Defined.

(** Witness of X15: buying at 0.99 and selling at 1.01 with $0.10 of gas. *)
Lemma calculateMinimumTradeAmount_rounding_witness :
  0 < calculateMinimumTradeAmount (1 # 2) (99 # 100) (101 # 100) (1 # 10) true.
Proof.
  apply (proj2 (proj2 (proj2 (calculateMinimumTradeAmount_rounding (1 # 2) (99 # 100)
           (101 # 100) (1 # 10) true ltac:(reflexivity))))).
  - vm_compute. discriminate.
  - vm_compute. discriminate.
Defined.

(** Witness of X16: the USDC-targeted check on the USDC-heavy ledger
    decides a 100 USDC trade, which is the trade it commits. *)
Lemma check_then_commit_witness :
  exists t, paperTrades (checkUSDCTargetedArbitrage (1 # 2) usdcHeavyLedger 7 "trade_7_a"
                           (fun _ => 1 # 20) "avalanche" "sonic" (99 # 100) (101 # 100) (1 # 10)) =
              paperTrades usdcHeavyLedger ++ [t] /\
    amount t = 100 /\ sourceChain t = "avalanche" /\ targetChain t = "sonic" /\
    netProfit t == 100 / (99 # 100) * (101 # 100) - 100 - (1 # 10).
Proof.
  apply (proj1 (check_then_commit (1 # 2) usdcHeavyLedger 7 "trade_7_a" (fun _ => 1 # 20)
           "avalanche" "sonic" (99 # 100) (101 # 100) (1 # 10) 100 ltac:(reflexivity))).
  vm_compute. reflexivity.
Defined.

(** Witness of X17: both pools load from empty caches and both [slot0]
    reads give 2^96. *)
Lemma getAllPoolPrices_prices_witness :
  fst (getAllPoolPrices ∅ ∅ (Ok usdcUsdtReads) (Ok usdcUsdtReads) false
         (Some 79228162514264337593543950336%Z) (Some 79228162514264337593543950336%Z) 5 6)
    !! "sonic" =
  Some (mkLastPrice
          (mkPoolPrice (1 / calculatePriceFromSqrtPriceX96 79228162514264337593543950336 6 6)
                       (calculatePriceFromSqrtPriceX96 79228162514264337593543950336 6 6)) 6).
Proof.
  refine (proj1 (proj2 (getAllPoolPrices_prices ∅ ∅ (Ok usdcUsdtReads) (Ok usdcUsdtReads) false
           (Some 79228162514264337593543950336%Z) (Some 79228162514264337593543950336%Z) 5 6
           pharaohMetadata shadowSampleMetadata _ _))); vm_compute; reflexivity.
Defined.

(** Witness of X18: the Pharaoh reads fail, the Shadow reads succeed. *)
Lemma getAllPoolPrices_metadata_failure_witness :
  fst (getAllPoolPrices ∅ ∅ (Throw "timeout") (Ok usdcUsdtReads) false
         (Some 1%Z) (Some 1%Z) 5 6) = ∅ /\
  snd (getAllPoolPrices ∅ ∅ (Throw "timeout") (Ok usdcUsdtReads) false
         (Some 1%Z) (Some 1%Z) 5 6) !! ("sonic" +:+ "-" +:+ SHADOW_POOL_SONIC) =
    Some shadowSampleMetadata.
Proof.
  assert (Hf : exists e, fst (getPoolMetadata (∅ : gmap string PoolMetadataRecord) "Pharaoh"
                "avalanche" PHARAOH_POOL_AVALANCHE (Throw "timeout")) = Throw e).
  { exists "timeout". vm_compute. reflexivity. }
  destruct (getAllPoolPrices_metadata_failure ∅ ∅ (Throw "timeout") (Ok usdcUsdtReads) false
              (Some 1%Z) (Some 1%Z) 5 6 (or_introl Hf)) as (H1 & _ & H3).
  split; [exact H1|]. apply H3. vm_compute. reflexivity.
Defined.
